(** * Pomodoro focus timer: session state machine and detached-view sync

    A shallow embedding of [web/src/pages/Pomodoro/index.tsx] (the [FocusMode]
    component and the preset editor of the settings section) together with
    the properties its design document states about it.

    Conventions of the embedding.
    - JavaScript numbers that the timer manipulates are integers; they are
      modelled as [Z].  [NaN] only arises from [parseInt] and from [%] with a
      zero divisor and is modelled by [None].
    - The four [useState] cells of [FocusMode] form the record [FocusState].
      A setter is a record update, and the setters of one event are
      applied together, in the order of the calls.  A closure reads
      [timerMode] and [completedSessions] of the render that created it:
      the buttons call the closures of the render on display, the
      one-second interval those of the render in which [running] last
      changed, and the message listener those of the first render.
    - [localStorage.getItem('pomodoro:timerSettings')] followed by
      [JSON.parse] is modelled by [StoredItem].
    - The detached view is followed in a small timed transition system
      ([Pip]) whose timer callbacks fire at the instant they are due. *)

From Stdlib Require Import ZArith List String Ascii Bool Lia.
From Stdlib Require Import DecimalString DecimalPos.
Import ListNotations.

Open Scope string_scope.
Open Scope Z_scope.

(** ** JavaScript primitives used by the page *)

Module Js.

(** A number that may be [NaN]. *)
Definition number := option Z.

(** [n % k === 0].  The remainder takes the sign of the dividend
    ([Z.rem]); with [k = 0] the remainder is [NaN], which is not [0]. *)
Definition remIsZero (n k : Z) : bool :=
  if k =? 0 then false else Z.rem n k =? 0.

(** [x || d] for numbers: [NaN] and [0] are falsy. *)
Definition orElse (x : number) (d : Z) : Z :=
  match x with
  | None => d
  | Some v => if v =? 0 then d else v
  end.

(** White space skipped by [parseInt] (the ASCII part of it). *)
Definition isWhiteSpace (c : ascii) : bool :=
  let n := nat_of_ascii c in
  (Nat.eqb n 32 || Nat.eqb n 9 || Nat.eqb n 10 || Nat.eqb n 11
   || Nat.eqb n 12 || Nat.eqb n 13)%bool.

Fixpoint trimStart (s : string) : string :=
  match s with
  | String c rest => if isWhiteSpace c then trimStart rest else s
  | EmptyString => EmptyString
  end.

(** Value of a character as a digit in [radix], if it is one. *)
Definition digitValue (radix : Z) (c : ascii) : option Z :=
  let n := Z.of_nat (nat_of_ascii c) in
  let v :=
    if (48 <=? n) && (n <=? 57) then Some (n - 48)
    else if (97 <=? n) && (n <=? 122) then Some (n - 87)
    else if (65 <=? n) && (n <=? 90) then Some (n - 55)
    else None in
  match v with
  | Some d => if d <? radix then Some d else None
  | None => None
  end.

(** Longest prefix of digits, read left to right; [None] when the prefix
    is empty. *)
Fixpoint digits (radix : Z) (acc : option Z) (s : string) : option Z :=
  match s with
  | String c rest =>
      match digitValue radix c with
      | Some d =>
          digits radix
            (Some (match acc with Some a => a * radix + d | None => d end))
            rest
      | None => acc
      end
  | EmptyString => acc
  end.

Definition stripHexPrefix (s : string) : option string :=
  match s with
  | String "0" (String "x" rest) => Some rest
  | String "0" (String "X" rest) => Some rest
  | _ => None
  end.

(** [parseInt(s)] with no radix argument: leading white space, an optional
    sign, an optional [0x] prefix, then the longest run of digits.  The
    rounding of integers beyond 2^53 is not modelled. *)
Definition parseInt (s : string) : number :=
  let t := trimStart s in
  let '(sign, body) :=
    match t with
    | String "-" rest => (-1, rest)
    | String "+" rest => (1, rest)
    | _ => (1, t)
    end in
  let magnitude :=
    match stripHexPrefix body with
    | Some hex => digits 16 None hex
    | None => digits 10 None body
    end in
  match magnitude with
  | Some m => Some (sign * m)
  | None => None
  end.

End Js.

(** ** Data model *)

Inductive PresetType := pomodoro | stopwatch | countdown | custom.

Record TimerPreset := {
  id : string;
  name : string;
  description : string;
  type : PresetType;
  focusDuration : Z;        (* in minutes (0 for stopwatch) *)
  shortBreakDuration : Z;   (* in minutes *)
  longBreakDuration : Z;    (* in minutes *)
  longBreakInterval : Z;    (* after how many focus sessions *)
  autoStartBreaks : bool;
  autoStartFocus : bool;
  isDefault : bool          (* cannot be deleted *)
}.

Inductive TimerMode := focus | short_break | long_break.

Definition TimerMode_eqb (a b : TimerMode) : bool :=
  match a, b with
  | focus, focus | short_break, short_break | long_break, long_break => true
  | _, _ => false
  end.

(** The state cells of [FocusMode]. *)
Record FocusState := {
  timerMode : TimerMode;
  running : bool;
  completedSessions : Z;
  secondsLeft : Z
}.

Definition setTimerMode (m : TimerMode) (s : FocusState) : FocusState :=
  {| timerMode := m; running := running s;
     completedSessions := completedSessions s; secondsLeft := secondsLeft s |}.

Definition setRunning (b : bool) (s : FocusState) : FocusState :=
  {| timerMode := timerMode s; running := b;
     completedSessions := completedSessions s; secondsLeft := secondsLeft s |}.

Definition setCompletedSessions (n : Z) (s : FocusState) : FocusState :=
  {| timerMode := timerMode s; running := running s;
     completedSessions := n; secondsLeft := secondsLeft s |}.

Definition setSecondsLeft (n : Z) (s : FocusState) : FocusState :=
  {| timerMode := timerMode s; running := running s;
     completedSessions := completedSessions s; secondsLeft := n |}.

(** ** Built-in presets ([getDefaultPresets]) *)

Definition getDefaultPresets : list TimerPreset :=
  [ {| id := "pomodoro-classic"; name := "Classic Pomodoro";
       description := "25 minutes focus, 5 minutes break, 15 minutes long break";
       type := pomodoro; focusDuration := 25; shortBreakDuration := 5;
       longBreakDuration := 15; longBreakInterval := 4;
       autoStartBreaks := true; autoStartFocus := true; isDefault := true |};
    {| id := "pomodoro-short"; name := "Short Pomodoro";
       description := "15 minutes focus, 3 minutes break, 10 minutes long break";
       type := pomodoro; focusDuration := 15; shortBreakDuration := 3;
       longBreakDuration := 10; longBreakInterval := 4;
       autoStartBreaks := true; autoStartFocus := true; isDefault := true |};
    {| id := "52-17-rule"; name := "52/17 Rule";
       description := "52 minutes focus, 17 minutes break";
       type := pomodoro; focusDuration := 52; shortBreakDuration := 17;
       longBreakDuration := 17; longBreakInterval := 1;
       autoStartBreaks := true; autoStartFocus := true; isDefault := true |};
    {| id := "animedoro"; name := "Animedoro";
       description := "Perfect for anime watching: 90 minutes focus, 15 minutes break";
       type := pomodoro; focusDuration := 90; shortBreakDuration := 15;
       longBreakDuration := 30; longBreakInterval := 2;
       autoStartBreaks := true; autoStartFocus := true; isDefault := true |};
    {| id := "stopwatch"; name := "Stopwatch";
       description := "Count up timer for flexible timing";
       type := stopwatch; focusDuration := 0; shortBreakDuration := 5;
       longBreakDuration := 15; longBreakInterval := 4;
       autoStartBreaks := false; autoStartFocus := false; isDefault := true |};
    {| id := "countdown-60"; name := "Countdown 60";
       description := "60 minutes countdown timer";
       type := countdown; focusDuration := 60; shortBreakDuration := 5;
       longBreakDuration := 15; longBreakInterval := 1;
       autoStartBreaks := false; autoStartFocus := false; isDefault := true |};
    {| id := "countdown-30"; name := "Countdown 30";
       description := "30 minutes countdown timer";
       type := countdown; focusDuration := 30; shortBreakDuration := 5;
       longBreakDuration := 10; longBreakInterval := 1;
       autoStartBreaks := false; autoStartFocus := false; isDefault := true |} ].

(** ** Stored timer settings *)

(** The parsed value of the [pomodoro:timerSettings] item.  A field that is
    absent from the JSON object is [None]. *)
Record TimerSettings := {
  selectedPreset : option string;
  presets : option (list TimerPreset)
}.

(** What [getCurrentPreset] finds in the store: no item, an item that
    [JSON.parse] or the property access rejects, or a settings object. *)
Inductive StoredItem :=
| ItemMissing
| ItemUnreadable
| ItemSettings (settings : TimerSettings).

Definition idIs (selected : option string) (p : TimerPreset) : bool :=
  match selected with
  | Some sel => String.eqb (id p) sel
  | None => false
  end.

(** [getCurrentPreset]: [settings.presets?.find(p => p.id ===
    settings.selectedPreset)], or [null]; every exception is swallowed and
    gives [null] as well. *)
Definition getCurrentPreset (raw : StoredItem) : option TimerPreset :=
  match raw with
  | ItemSettings settings =>
      match presets settings with
      | Some ps => find (idIs (selectedPreset settings)) ps
      | None => None
      end
  | ItemMissing | ItemUnreadable => None
  end.

(** [getTimerDuration]: seconds of a mode under the current preset, with the
    classic 25/5/15 fallback when there is no preset. *)
Definition getTimerDuration (raw : StoredItem) (mode : TimerMode) : Z :=
  match getCurrentPreset raw with
  | None =>
      match mode with
      | focus => 25 * 60
      | short_break => 5 * 60
      | long_break => 15 * 60
      end
  | Some preset =>
      match mode with
      | focus => focusDuration preset * 60
      | short_break => shortBreakDuration preset * 60
      | long_break => longBreakDuration preset * 60
      end
  end.

(** Initial state of [FocusMode] on mount. *)
Definition initialState (raw : StoredItem) : FocusState :=
  {| timerMode := focus; running := false; completedSessions := 0;
     secondsLeft := getTimerDuration raw focus |}.

(** ** Session state machine *)

(** Every render of [FocusMode] creates its own [handleTimerComplete],
    [reset], ... closures, which read [timerMode] and [completedSessions]
    of that render.  In the definitions below [render] is the state that
    the render displayed and [s] the state the cells hold when the closure
    is called; the setters act on [s]. *)

(** [handleTimerComplete]: the automatic mode switch when a timer
    completes.  Without a current preset it returns at once. *)
Definition handleTimerCompleteOf (raw : StoredItem) (render s : FocusState)
    : FocusState :=
  match getCurrentPreset raw with
  | None => s
  | Some preset =>
      match timerMode render with
      | focus =>
          let newCompletedSessions := completedSessions render + 1 in
          let isLongBreak :=
            Js.remIsZero newCompletedSessions (longBreakInterval preset) in
          let breakMode := if isLongBreak then long_break else short_break in
          setRunning (autoStartBreaks preset)
            (setSecondsLeft (getTimerDuration raw breakMode)
               (setTimerMode breakMode
                  (setCompletedSessions newCompletedSessions s)))
      | short_break | long_break =>
          setRunning (autoStartFocus preset)
            (setSecondsLeft (getTimerDuration raw focus)
               (setTimerMode focus s))
      end
  end.

(** The handler of the render that displays [s], which is the one a button
    of the page calls. *)
Definition handleTimerComplete (raw : StoredItem) (s : FocusState) : FocusState :=
  handleTimerCompleteOf raw s s.

(** The updater that the one-second interval passes to [setSecondsLeft],
    with the [handleTimerComplete] of the render whose effect installed the
    interval.  The updater calls setters itself.  React runs an updater
    either when it is dispatched or while it renders the component, and the
    place of the updater's result among the writes of those setters depends
    on which.

    [tick]: the updater runs when it is dispatched.  The writes of the
    setters it calls are queued while it runs, its own result [0] behind
    them, so the cell ends at [0]; a result that is the value the cell
    already holds is no update, and then the handler's write stands. *)
Definition tick (raw : StoredItem) (render s : FocusState) : FocusState :=
  if secondsLeft s <=? 1 then
    let s1 := handleTimerCompleteOf raw render (setRunning false s) in
    if secondsLeft s =? 0 then s1 else setSecondsLeft 0 s1
  else
    setSecondsLeft (secondsLeft s - 1) s.

(** [tickWhileRendering]: the updater runs while React renders.  Its result
    is written first and the setters it calls are applied after it. *)
Definition tickWhileRendering (raw : StoredItem) (render s : FocusState)
    : FocusState :=
  if secondsLeft s <=? 1 then
    handleTimerCompleteOf raw render (setRunning false (setSecondsLeft 0 s))
  else
    setSecondsLeft (secondsLeft s - 1) s.

(** The first firing of the interval that the render displaying [s] has
    installed (the interval exists only while [running] is true). *)
Definition clockTick (raw : StoredItem) (s : FocusState) : FocusState :=
  if running s then tick raw s s else s.

Definition start (s : FocusState) : FocusState := setRunning true s.

Definition stop (s : FocusState) : FocusState := setRunning false s.

(** [reset], which reads [timerMode] of its render. *)
Definition resetOf (raw : StoredItem) (render s : FocusState) : FocusState :=
  setSecondsLeft (getTimerDuration raw (timerMode render)) (setRunning false s).

(** The [reset] of the render that displays [s], which the Reset button
    calls. *)
Definition reset (raw : StoredItem) (s : FocusState) : FocusState :=
  resetOf raw s s.

Definition skip (raw : StoredItem) (s : FocusState) : FocusState :=
  handleTimerComplete raw (setRunning false s).

Definition switchMode (raw : StoredItem) (newMode : TimerMode)
    (s : FocusState) : FocusState :=
  let s1 := setSecondsLeft (getTimerDuration raw newMode)
              (setTimerMode newMode (setRunning false s)) in
  match newMode with
  | focus => setCompletedSessions 0 s1
  | short_break | long_break => s1
  end.

(** ** Messages from the detached view *)

(** [event.data] of a [message] event.  Reading [.type] of [null] or
    [undefined] throws; of any other value it yields the property, kept here
    when it is a string. *)
Inductive EventData :=
| DataNullish
| DataValue (type_ : option string) (action : option string).

Definition fieldIs (f : option string) (lit : string) : bool :=
  match f with
  | Some v => String.eqb v lit
  | None => false
  end.

(** [handleMessage]; [None] is an uncaught [TypeError].  The listener is
    added once, by an effect without dependencies, so the [start], [stop]
    and [reset] it calls are those of the first render, which displays
    [initialState]: its [reset] reads [timerMode] as [focus]. *)
Definition handleMessage (raw : StoredItem) (data : EventData)
    (s : FocusState) : option FocusState :=
  match data with
  | DataNullish => None
  | DataValue type_ action =>
      if fieldIs type_ "pip-control" then
        if fieldIs action "start" then Some (start s)
        else if fieldIs action "stop" then Some (stop s)
        else if fieldIs action "reset"
             then Some (resetOf raw (initialState raw) s)
        else Some s
      else Some s
  end.

(** ** Traces of the session state machine *)

(** What can happen to the primary timer: the buttons, the two operations
    that no button is wired to ([skip], [switchMode]), a firing of the
    one-second interval (with the updater run at dispatch, [Tick], or while
    rendering, [TickWhileRendering]) and a [message] event. *)
Inductive Action :=
| Start
| Stop
| Reset
| Skip
| SwitchMode (newMode : TimerMode)
| Tick
| TickWhileRendering
| Message (data : EventData).

(** The page between two events: the state cells, and the render whose
    effect installed the interval that is in place, if one is. *)
Record Page := {
  cells : FocusState;
  intervalOf : option FocusState
}.

(** The effect on [[running]], after a render that changed the cells from
    [before] to [after]: it runs only when [running] has changed, clears the
    interval, and installs one with the closures of this render when
    [running] is true.  The setters of one event are applied together, so
    [setRunning(false); ...; setRunning(true)] on a running timer changes
    nothing and the interval in place stays. *)
Definition effectOnRunning (before after : FocusState)
    (held : option FocusState) : option FocusState :=
  if Bool.eqb (running before) (running after) then held
  else if running after then Some after else None.

(** A page that displays [s], with the interval of that very render when
    [s] is running. *)
Definition mounted (s : FocusState) : Page :=
  {| cells := s; intervalOf := if running s then Some s else None |}.

(** The state cells after an event.  The buttons call the closures of the
    render on display; the interval and the message listener call the ones
    they were created with.  An exception thrown by the message listener
    leaves the state cells as they were. *)
Definition cellsAfter (raw : StoredItem) (a : Action) (p : Page) : FocusState :=
  let s := cells p in
  match a with
  | Start => start s
  | Stop => stop s
  | Reset => reset raw s
  | Skip => skip raw s
  | SwitchMode newMode => switchMode raw newMode s
  | Tick =>
      match intervalOf p with
      | Some render => tick raw render s
      | None => s
      end
  | TickWhileRendering =>
      match intervalOf p with
      | Some render => tickWhileRendering raw render s
      | None => s
      end
  | Message data =>
      match handleMessage raw data s with
      | Some s' => s'
      | None => s
      end
  end.

Definition stepPage (raw : StoredItem) (a : Action) (p : Page) : Page :=
  {| cells := cellsAfter raw a p;
     intervalOf := effectOnRunning (cells p) (cellsAfter raw a p) (intervalOf p) |}.

Fixpoint runPage (raw : StoredItem) (tr : list Action) (p : Page) : Page :=
  match tr with
  | [] => p
  | a :: rest => runPage raw rest (stepPage raw a p)
  end.

(** One event, and a sequence of events, from the page that displays [s]. *)
Definition step (raw : StoredItem) (a : Action) (s : FocusState) : FocusState :=
  cells (stepPage raw a (mounted s)).

Definition run (raw : StoredItem) (tr : list Action) (s : FocusState) : FocusState :=
  cells (runPage raw tr (mounted s)).

Definition isSwitchMode (a : Action) : bool :=
  match a with
  | SwitchMode _ => true
  | _ => false
  end.

Definition isFiring (a : Action) : bool :=
  match a with
  | Tick | TickWhileRendering => true
  | _ => false
  end.


(** ** Preset editor (settings section) *)

(** [onChange] of the "Long Break After (sessions)" input:
    [setEditingPreset({ ...editingPreset,
       longBreakInterval: parseInt(e.target.value) || 4 })]. *)
Definition onChangeLongBreakInterval (editingPreset : TimerPreset)
    (value : string) : TimerPreset :=
  {| id := id editingPreset;
     name := name editingPreset;
     description := description editingPreset;
     type := type editingPreset;
     focusDuration := focusDuration editingPreset;
     shortBreakDuration := shortBreakDuration editingPreset;
     longBreakDuration := longBreakDuration editingPreset;
     longBreakInterval := Js.orElse (Js.parseInt value) 4;
     autoStartBreaks := autoStartBreaks editingPreset;
     autoStartFocus := autoStartFocus editingPreset;
     isDefault := isDefault editingPreset |}.

(** The list sent to the settings store by [Save]:
    [presets.map(p => p.id === editingPreset.id ? editingPreset : p)]. *)
Definition savePresets (ps : list TimerPreset) (editingPreset : TimerPreset)
    : list TimerPreset :=
  map (fun p => if String.eqb (id p) (id editingPreset) then editingPreset else p)
      ps.

(** The preset made by "+ New Preset"; [stamp] is [Date.now()]. *)
Definition newCustomPreset (stamp : string) : TimerPreset :=
  {| id := "custom-" ++ stamp; name := "Custom Preset";
     description := "A custom timer preset"; type := custom;
     focusDuration := 25; shortBreakDuration := 5; longBreakDuration := 15;
     longBreakInterval := 4; autoStartBreaks := true; autoStartFocus := true;
     isDefault := false |}.

(** ** Detached view (picture-in-picture window) tracking *)

Module Pip.

(** A window object handed out by [documentPictureInPicture.requestWindow];
    the number is its identity. *)
Definition Window := nat.

(** Period of the closure-check interval, in milliseconds. *)
Definition checkIntervalMs : Z := 1000.

(** The [pip-update] message. *)
Record Update := {
  seconds : Z;
  upd_running : bool;
  mode : TimerMode
}.

Definition updateOf (s : FocusState) : Update :=
  {| seconds := secondsLeft s; upd_running := running s;
     mode := timerMode s |}.

(** The primary's view of the detached window, with the part of the
    environment it observes: the clock, which windows report [closed]
    (and since when), and the messages posted so far, newest first.
    [checkDue] is the next firing of the closure-check interval when it is
    installed.  Timer callbacks fire at the instant they are due. *)
Record State := {
  pipWindowRef : option Window;
  isPipActive : bool;
  checkDue : option Z;
  now : Z;
  closedAt : Window -> option Z;
  opened : nat;
  posted : list (Window * Update)
}.

Definition init : State :=
  {| pipWindowRef := None; isPipActive := false; checkDue := None;
     now := 0; closedAt := fun _ => None; opened := 0%nat; posted := [] |}.

(** [w.closed] *)
Definition isClosed (st : State) (w : Window) : bool :=
  match closedAt st w with
  | Some _ => true
  | None => false
  end.

(** [setIsPipActive(b)], with the effect on [[isPipActive]] that installs
    the closure-check interval when the flag turns true and clears it when
    it turns false. *)
Definition setIsPipActive (b : bool) (st : State) : State :=
  if Bool.eqb b (isPipActive st) then st
  else
    {| pipWindowRef := pipWindowRef st; isPipActive := b;
       checkDue := if b then Some (now st + checkIntervalMs) else None;
       now := now st; closedAt := closedAt st; opened := opened st;
       posted := posted st |}.

(** [pipWindowRef.current = r] *)
Definition setPipWindowRef (r : option Window) (st : State) : State :=
  {| pipWindowRef := r; isPipActive := isPipActive st;
     checkDue := checkDue st; now := now st; closedAt := closedAt st;
     opened := opened st; posted := posted st |}.

(** [setIsPipActive(false); pipWindowRef.current = null] *)
Definition forget (st : State) : State :=
  setPipWindowRef None (setIsPipActive false st).

(** [w.postMessage(u, '*')] *)
Definition postMessage (w : Window) (u : Update) (st : State) : State :=
  {| pipWindowRef := pipWindowRef st; isPipActive := isPipActive st;
     checkDue := checkDue st; now := now st; closedAt := closedAt st;
     opened := opened st; posted := (w, u) :: posted st |}.

(** The window's [closed] turns true; it keeps the time of the first
    closing. *)
Definition closeWindow (w : Window) (st : State) : State :=
  {| pipWindowRef := pipWindowRef st; isPipActive := isPipActive st;
     checkDue := checkDue st; now := now st;
     closedAt := fun x =>
       if Nat.eqb x w then
         match closedAt st w with
         | Some t => Some t
         | None => Some (now st)
         end
       else closedAt st x;
     opened := opened st; posted := posted st |}.

(** The effect "Update PiP window when timer state changes";
    [postThrows] says whether [postMessage] raises. *)
Definition pipUpdateEffect (u : Update) (postThrows : bool) (st : State)
    : State :=
  match pipWindowRef st with
  | Some w =>
      if negb (isClosed st w) then
        if postThrows then forget st else postMessage w u st
      else if isPipActive st then forget st
      else st
  | None => st
  end.

(** The callback of the "Periodic check for PIP window closure". *)
Definition closureCheck (st : State) : State :=
  match pipWindowRef st with
  | Some w => if isClosed st w then forget st else st
  | None => st
  end.

Definition setCheckDue (d : option Z) (st : State) : State :=
  {| pipWindowRef := pipWindowRef st; isPipActive := isPipActive st;
     checkDue := d; now := now st; closedAt := closedAt st;
     opened := opened st; posted := posted st |}.

(** The interval fires when it is due, is due again one period later, and
    runs its callback. *)
Definition intervalFires (st : State) : option State :=
  match checkDue st with
  | Some t =>
      if t =? now st then
        Some (closureCheck (setCheckDue (Some (t + checkIntervalMs)) st))
      else None
  | None => None
  end.

(** Outcome of asking the browser for a window. *)
Inductive Request := Unsupported | Denied | Granted.

Definition newWindow (st : State) : State :=
  {| pipWindowRef := Some (opened st); isPipActive := isPipActive st;
     checkDue := checkDue st; now := now st; closedAt := closedAt st;
     opened := S (opened st); posted := posted st |}.

(** [togglePip] *)
Definition togglePip (r : Request) (st : State) : State :=
  match isPipActive st, pipWindowRef st with
  | true, Some w => forget (closeWindow w st)
  | _, _ =>
      match r with
      | Unsupported | Denied => st
      | Granted => setIsPipActive true (newWindow st)
      end
  end.

Definition advance (ms : Z) (st : State) : State :=
  {| pipWindowRef := pipWindowRef st; isPipActive := isPipActive st;
     checkDue := checkDue st; now := now st + ms; closedAt := closedAt st;
     opened := opened st; posted := posted st |}.

(** What happens around the detached window: the PiP button, the window
    being closed from outside, its [pagehide]/[unload] listener, a change
    of the timer state (which runs the update effect), the closure-check
    interval firing, and time passing. *)
Inductive Event :=
| ClickPip (r : Request)
| WindowClosed (w : Window)
| PageHide (w : Window)
| TimerChanged (u : Update) (postThrows : bool)
| CheckFires
| Elapse (ms : Z).

(** One event; [None] when the event cannot happen in that state (a window
    that was never created, a timer that is not due, time running past a
    due timer). *)
Definition fire (e : Event) (st : State) : option State :=
  match e with
  | ClickPip r => Some (togglePip r st)
  | WindowClosed w =>
      if (w <? opened st)%nat && negb (isClosed st w)
      then Some (closeWindow w st) else None
  | PageHide w =>
      if (w <? opened st)%nat then Some (forget st) else None
  | TimerChanged u postThrows => Some (pipUpdateEffect u postThrows st)
  | CheckFires => intervalFires st
  | Elapse ms =>
      if (0 <? ms)
         && match checkDue st with
            | Some t => now st + ms <=? t
            | None => true
            end
      then Some (advance ms st) else None
  end.

Fixpoint exec (tr : list Event) (st : State) : option State :=
  match tr with
  | [] => Some st
  | e :: rest =>
      match fire e st with
      | Some st' => exec rest st'
      | None => None
      end
  end.

(** The event asks for a new window and the browser grants it. *)
Definition opensWindow (e : Event) : bool :=
  match e with
  | ClickPip Granted => true
  | _ => false
  end.

Definition opensNoWindow (tr : list Event) : bool :=
  forallb (fun e => negb (opensWindow e)) tr.

(** Nothing happens along the trace but time passing and the closure
    check firing. *)
Definition timeOnly (tr : list Event) : bool :=
  forallb (fun e => match e with
                    | CheckFires | Elapse _ => true
                    | _ => false
                    end) tr.

(** Messages posted to [w], newest first. *)
Definition postedTo (w : Window) (st : State) : list Update :=
  map snd (filter (fun m => Nat.eqb (fst m) w) (posted st)).

End Pip.

(** ** Timer display ([formatTimer], [AnimatedTimer]) *)

Module Display.

(** [n.toString()] of an integer (one of less than 22 digits; JavaScript
    writes larger numbers with an exponent). *)
Definition toString (n : Z) : string :=
  NilZero.string_of_int (Z.to_int n).

Fixpoint zeros (n : nat) : string :=
  match n with
  | O => EmptyString
  | S n' => String "0" (zeros n')
  end.

(** [s.padStart(targetLength, '0')] *)
Definition padStart (targetLength : nat) (s : string) : string :=
  zeros (targetLength - String.length s) ++ s.

(** [formatTimer]: [Math.floor(seconds / 60)] and [seconds % 60], each
    padded to two characters, around a colon. *)
Definition formatTimer (seconds : Z) : string :=
  let mm := padStart 2 (toString (seconds / 60)) in
  let ss := padStart 2 (toString (Z.rem seconds 60)) in
  mm ++ ":" ++ ss.

(** The five spans that [AnimatedTimer] renders: [mm[0]], [mm[1]], the
    separator, [ss[0]], [ss[1]]; a character that does not exist renders
    nothing. *)
Definition spans (seconds : Z) : list (option ascii) :=
  let mm := padStart 2 (toString (seconds / 60)) in
  let ss := padStart 2 (toString (Z.rem seconds 60)) in
  [String.get 0 mm; String.get 1 mm; Some ":"%char;
   String.get 0 ss; String.get 1 ss].

Fixpoint textOf (l : list (option ascii)) : string :=
  match l with
  | [] => EmptyString
  | Some c :: rest => String c (textOf rest)
  | None :: rest => textOf rest
  end.

(** What [AnimatedTimer] keeps between renders: the ref, the state, the
    dependency [currentTime] of the last run of its effect ([None] before
    the first), and whether the 600 ms timeout of that run is pending. *)
Record AnimatedTimer := {
  prevTimeRef : string;
  animatingDigits : list nat;
  lastTime : option string;
  timer : bool
}.

Definition mounting : AnimatedTimer :=
  {| prevTimeRef := ""; animatingDigits := []; lastTime := None;
     timer := false |}.

Definition sameChar (a b : option ascii) : bool :=
  match a, b with
  | Some x, Some y => Ascii.eqb x y
  | None, None => true
  | _, _ => false
  end.

(** The positions, other than the colon's, where [currentTime] differs
    from [prev]. *)
Definition changes (currentTime prev : string) : list nat :=
  filter (fun i => negb (Nat.eqb i 2)
                   && negb (sameChar (String.get i currentTime)
                                     (String.get i prev)))
         (seq 0 (String.length currentTime)).

Definition has (i : nat) (set : list nat) : bool := existsb (Nat.eqb i) set.

(** "Only animate the most significant changing digit(s)". *)
Definition finalChanges (changed : list nat) : list nat :=
  if has 4 changed then [4%nat]
  else if has 3 changed then [3%nat; 4%nat]
  else if has 1 changed || has 0 changed then
    ((if has 0 changed then [0%nat] else [])
     ++ (if has 1 changed then [1%nat] else []))%list
  else [].

(** A run of the effect on [[currentTime]], after the cleanup of the run
    before it has cleared that run's timeout.  When it animates it returns
    before the assignment to [prevTimeRef.current]. *)
Definition timeChanged (currentTime : string) (t : AnimatedTimer)
    : AnimatedTimer :=
  if negb (String.eqb (prevTimeRef t) "")
     && negb (String.eqb (prevTimeRef t) currentTime)
  then {| prevTimeRef := prevTimeRef t;
          animatingDigits := finalChanges (changes currentTime (prevTimeRef t));
          lastTime := Some currentTime;
          timer := true |}
  else {| prevTimeRef := currentTime;
          animatingDigits := animatingDigits t;
          lastTime := Some currentTime;
          timer := false |}.

(** A render with [seconds]: the effect runs when [currentTime] is not the
    one of its last run. *)
Definition render (seconds : Z) (t : AnimatedTimer) : AnimatedTimer :=
  let currentTime := formatTimer seconds in
  match lastTime t with
  | Some last =>
      if String.eqb last currentTime then t else timeChanged currentTime t
  | None => timeChanged currentTime t
  end.

(** The 600 ms timeout, when it is pending. *)
Definition animationEnds (t : AnimatedTimer) : AnimatedTimer :=
  if timer t
  then {| prevTimeRef := prevTimeRef t; animatingDigits := [];
          lastTime := lastTime t; timer := false |}
  else t.

Inductive Event :=
| Renders (seconds : Z)
| TimeoutFires.

Definition handle (e : Event) (t : AnimatedTimer) : AnimatedTimer :=
  match e with
  | Renders seconds => render seconds t
  | TimeoutFires => animationEnds t
  end.

Fixpoint play (events : list Event) (t : AnimatedTimer) : AnimatedTimer :=
  match events with
  | [] => t
  | e :: rest => play rest (handle e t)
  end.

(** [f] holds of [0 .. n-1]. *)
Definition allBelow (n : Z) (f : Z -> bool) : bool :=
  forallb f (map Z.of_nat (seq 0 (Z.to_nat n))).

(** [formatTimer seconds] is five characters with the colon in the middle,
    and its halves read back as the minutes and the seconds. *)
Definition readsBack (seconds : Z) : bool :=
  let text := formatTimer seconds in
  Nat.eqb (String.length text) 5
  && sameChar (String.get 2 text) (Some ":"%char)
  && match Js.parseInt (String.substring 0 2 text),
           Js.parseInt (String.substring 3 2 text) with
     | Some m, Some sec => (m =? seconds / 60) && (sec =? seconds mod 60)
     | _, _ => false
     end.

(** The five spans of [AnimatedTimer] spell [formatTimer seconds]. *)
Definition spansSpell (seconds : Z) : bool :=
  String.eqb (textOf (spans seconds)) (formatTimer seconds).

End Display.

(** ** Ambient mode *)

Module Ambient.

(** The [pomodoro:timerSettings] item as [AmbientMode] reads it: its
    [ambientDuration] when the item parses to an object ([None] when the
    field is absent, since [undefined * 60] is [NaN]). *)
Inductive StoredAmbient :=
| NoItem
| Unreadable
| Parsed (ambientDuration : Js.number).

Record State := {
  running : bool;
  secondsLeft : Js.number
}.

(** [raw ? JSON.parse(raw).ambientDuration * 60 : 5 * 60], and [5 * 60]
    when that throws. *)
Definition duration (raw : StoredAmbient) : Js.number :=
  match raw with
  | Parsed (Some d) => Some (d * 60)
  | Parsed None => None
  | NoItem | Unreadable => Some (5 * 60)
  end.

Definition mount (raw : StoredAmbient) : State :=
  {| running := false; secondsLeft := duration raw |}.

(** [Math.max(0, s - 1)]; [NaN] stays [NaN]. *)
Definition countDown (s : Js.number) : Js.number :=
  match s with
  | Some v => Some (Z.max 0 (v - 1))
  | None => None
  end.

(** A firing of the interval, which exists while [running]. *)
Definition tick (st : State) : State :=
  if running st
  then {| running := true; secondsLeft := countDown (secondsLeft st) |}
  else st.

Definition start (st : State) : State :=
  {| running := true; secondsLeft := secondsLeft st |}.

Definition stop (st : State) : State :=
  {| running := false; secondsLeft := secondsLeft st |}.

Definition reset (raw : StoredAmbient) (st : State) : State :=
  {| running := false; secondsLeft := duration raw |}.

Fixpoint ticks (n : nat) (st : State) : State :=
  match n with
  | O => st
  | S n' => ticks n' (tick st)
  end.

End Ambient.

(** ** The script of the detached window *)

Module Mirror.

(** The script's variables; [intervalId] says whether it holds a timer. *)
Record State := {
  currentSeconds : Z;
  isRunning : bool;
  intervalId : bool
}.

(** The values interpolated when the window is written:
    [currentSeconds = ${secondsLeft}], [isRunning = ${running}],
    [intervalId = null]. *)
Definition loaded (secondsLeft : Z) (running : bool) : State :=
  {| currentSeconds := secondsLeft; isRunning := running;
     intervalId := false |}.

Definition stopTimer (st : State) : State :=
  {| currentSeconds := currentSeconds st; isRunning := false;
     intervalId := false |}.

Definition startTimer (st : State) : State :=
  if isRunning st then st
  else {| currentSeconds := currentSeconds st; isRunning := true;
          intervalId := true |}.

(** The callback of the script's interval. *)
Definition intervalFires (st : State) : State :=
  let st1 := {| currentSeconds := Z.max 0 (currentSeconds st - 1);
                isRunning := isRunning st; intervalId := intervalId st |} in
  if currentSeconds st1 =? 0 then stopTimer st1 else st1.

Definition resetTimer (initialDuration : Z) (st : State) : State :=
  {| currentSeconds := initialDuration; isRunning := false;
     intervalId := false |}.

(** The listener for [pip-update] messages. *)
Definition onPipUpdate (u : Pip.Update) (st : State) : State :=
  let st1 := {| currentSeconds := Pip.seconds u;
                isRunning := Pip.upd_running u;
                intervalId := intervalId st |} in
  if isRunning st1 && negb (intervalId st1) then startTimer st1
  else if negb (isRunning st1) && intervalId st1 then stopTimer st1
  else st1.

Inductive Button := StartButton | StopButton | ResetButton.

(** The buttons that [updateTimer] writes into the controls. *)
Definition shown (initialDuration : Z) (st : State) (b : Button) : bool :=
  let isResetState :=
    negb (isRunning st) && (currentSeconds st =? initialDuration) in
  match b with
  | StartButton => negb (isRunning st)
  | StopButton => isRunning st
  | ResetButton => negb (isRunning st) && negb isResetState
  end.

Definition actionOf (b : Button) : string :=
  match b with
  | StartButton => "start"
  | StopButton => "stop"
  | ResetButton => "reset"
  end.

(** A click on a button that is shown: the local change and the message
    the listener posts. *)
Definition click (initialDuration : Z) (b : Button) (st : State)
    : option (State * EventData) :=
  if shown initialDuration st b then
    Some (match b with
          | StartButton => startTimer st
          | StopButton => stopTimer st
          | ResetButton => resetTimer initialDuration st
          end,
          DataValue (Some "pip-control") (Some (actionOf b)))
  else None.

Inductive Event :=
| Update (u : Pip.Update)
| Fires
| Click (b : Button).

(** One event; the interval fires only while it is installed, a button is
    clicked only while it is shown. *)
Definition fire (initialDuration : Z) (e : Event) (st : State)
    : option State :=
  match e with
  | Update u => Some (onPipUpdate u st)
  | Fires => if intervalId st then Some (intervalFires st) else None
  | Click b => option_map fst (click initialDuration b st)
  end.

Fixpoint exec (initialDuration : Z) (tr : list Event) (st : State)
    : option State :=
  match tr with
  | [] => Some st
  | e :: rest =>
      match fire initialDuration e st with
      | Some st' => exec initialDuration rest st'
      | None => None
      end
  end.

Definition isStartClick (e : Event) : bool :=
  match e with
  | Click StartButton => true
  | _ => false
  end.

Fixpoint fires (n : nat) (st : State) : State :=
  match n with
  | O => st
  | S n' => fires n' (intervalFires st)
  end.

(** What the message listener of the page calls for the action of a
    button: [start], [stop] and [reset] of the page's first render. *)
Definition operationOf (raw : StoredItem) (b : Button) (s : FocusState)
    : FocusState :=
  match b with
  | StartButton => start s
  | StopButton => stop s
  | ResetButton => resetOf raw (initialState raw) s
  end.

(** The mirror shows what the primary holds. *)
Definition inSync (s : FocusState) (m : State) : Prop :=
  currentSeconds m = secondsLeft s /\ isRunning m = running s.

End Mirror.

(** ** Wallpaper and font catalogues *)

Module Wallpapers.

Inductive MediaType := image | video.

Inductive Category := static | animated.

Record Wallpaper := {
  id : string;
  type : MediaType;
  src : string;
  tags : list string;
  category : Category
}.

(** [wallpapers[0]] of both catalogues. *)
Definition first : Wallpaper :=
  {| id := "default"; type := image; src := "/pomodoro/wallpapers/default.jpg";
     tags := ["nature"]; category := static |}.

Definition animatedOnes : list Wallpaper :=
  [ {| id := "rainy"; type := video; src := "/pomodoro/wallpapers/rain-desktop.mp4";
       tags := ["nature"; "live"]; category := animated |};
    {| id := "meteor"; type := video; src := "/pomodoro/wallpapers/meteor.mp4";
       tags := ["nature"; "live"]; category := animated |};
    {| id := "evening"; type := video; src := "/pomodoro/wallpapers/evening.mp4";
       tags := ["nature"; "live"]; category := animated |};
    {| id := "cloudy"; type := video; src := "/pomodoro/wallpapers/cloudy.mp4";
       tags := ["nature"; "live"]; category := animated |};
    {| id := "ocean-waves"; type := video; src := "/pomodoro/wallpapers/ocean-waves.mp4";
       tags := ["nature"; "ocean"; "live"]; category := animated |} ].

Definition staticTail : list Wallpaper :=
  [ {| id := "forest"; type := image; src := "/pomodoro/wallpapers/forest.jpg";
       tags := ["nature"; "forest"]; category := static |};
    {| id := "mountain"; type := image; src := "/pomodoro/wallpapers/mountain.jpg";
       tags := ["nature"; "mountain"]; category := static |};
    {| id := "ocean"; type := image; src := "/pomodoro/wallpapers/ocean.jpg";
       tags := ["nature"; "ocean"]; category := static |};
    {| id := "city"; type := image; src := "/pomodoro/wallpapers/city.jpg";
       tags := ["urban"; "city"]; category := static |};
    {| id := "minimalist"; type := image; src := "/pomodoro/wallpapers/minimalist.jpg";
       tags := ["minimalist"]; category := static |} ].

Definition space : Wallpaper :=
  {| id := "space"; type := image; src := "/pomodoro/wallpapers/space.jpg";
     tags := ["space"]; category := static |}.

(** The catalogue of the page ([PomodoroPage]). *)
Definition pageWallpapers : list Wallpaper :=
  [ first; space;
    {| id := "nature"; type := image; src := "/pomodoro/wallpapers/nature.jpeg";
       tags := ["nature"]; category := static |} ]
  ++ staticTail ++ animatedOnes.

(** The catalogue of the settings section ([PomodoroSection]). *)
Definition settingsWallpapers : list Wallpaper :=
  [ first; space;
    {| id := "snow"; type := image; src := "/pomodoro/wallpapers/nature.jpeg";
       tags := ["nature"]; category := static |} ]
  ++ staticTail ++ animatedOnes.

(** [wallpapers.find(w => w.id === selected) ?? wallpapers[0]] on the
    page. *)
Definition wallpaper (selectedWallpaper : string) : Wallpaper :=
  match find (fun w => String.eqb (id w) selectedWallpaper) pageWallpapers with
  | Some w => w
  | None => first
  end.

End Wallpapers.

Module Fonts.

Record Font := {
  id : string;
  label : string;
  css : string
}.

Definition fonts : list Font :=
  [ {| id := "system"; label := "System (default)"; css := "" |};
    {| id := "roboto"; label := "Roboto"; css := "'Roboto', sans-serif" |};
    {| id := "inter"; label := "Inter"; css := "'Inter', sans-serif" |};
    {| id := "playfair"; label := "Playfair Display";
       css := "'Playfair Display', serif" |};
    {| id := "lato"; label := "Lato"; css := "'Lato', sans-serif" |};
    {| id := "montserrat"; label := "Montserrat";
       css := "'Montserrat', sans-serif" |};
    {| id := "opensans"; label := "Open Sans"; css := "'Open Sans', sans-serif" |};
    {| id := "raleway"; label := "Raleway"; css := "'Raleway', sans-serif" |};
    {| id := "nunito"; label := "Nunito"; css := "'Nunito', sans-serif" |};
    {| id := "poppins"; label := "Poppins"; css := "'Poppins', sans-serif" |} ].

(** [fontCss]: the [css] of the selected font, [''] when there is none. *)
Definition fontCss (selectedFont : string) : string :=
  match find (fun f => String.eqb (id f) selectedFont) fonts with
  | Some f => css f
  | None => ""
  end.

(** [onChange] of the "Font Size (px)" input: the entry is taken only when
    it parses to a number from 12 to 40. *)
Definition onChangeFontSize (fontSize : Z) (value : string) : Z :=
  match Js.parseInt value with
  | Some v => if (12 <=? v) && (v <=? 40) then v else fontSize
  | None => fontSize
  end.

(** One entry after the other typed into the input. *)
Fixpoint typeAll (values : list string) (fontSize : Z) : Z :=
  match values with
  | [] => fontSize
  | value :: rest => typeAll rest (onChangeFontSize fontSize value)
  end.

End Fonts.

(** ** Timer settings of the settings section *)

Module View.

(** The value of [timerSettings]. *)
Record TimerSettingsValue := {
  focusDuration : Z;
  ambientDuration : Z;
  selectedPreset : string;
  presets : list TimerPreset
}.

End View.

Module Settings.

Definition classicId : string := "pomodoro-classic".

(** [ps.find(p => p.id === i)] *)
Definition findById (i : string) (ps : list TimerPreset) : option TimerPreset :=
  find (fun p => String.eqb (id p) i) ps.

(** "Merge existing presets with defaults, keeping user customizations":
    every default is replaced by the stored preset of its id when there is
    one. *)
Definition mergeDefaults (stored : list TimerPreset) : list TimerPreset :=
  map (fun defaultPreset =>
         match findById (id defaultPreset) stored with
         | Some existing => existing
         | None => defaultPreset
         end)
      getDefaultPresets.

(** The [forEach] that pushes every stored preset whose id is not in the
    merged list yet. *)
Definition pushMissing (merged stored : list TimerPreset) : list TimerPreset :=
  fold_left
    (fun mergedPresets preset =>
       match findById (id preset) mergedPresets with
       | Some _ => mergedPresets
       | None => (mergedPresets ++ [preset])%list
       end)
    stored merged.

Definition mergePresets (stored : list TimerPreset) : list TimerPreset :=
  pushMissing (mergeDefaults stored) stored.

(** [ps.find(p => p.id === sel)
     || getDefaultPresets().find(p => p.id === 'pomodoro-classic')] *)
Definition selectedPresetData (sel : string) (ps : list TimerPreset)
    : option TimerPreset :=
  match findById sel ps with
  | Some p => Some p
  | None => findById classicId getDefaultPresets
  end.

(** The four fields computed from a selection and a preset list:
    [selectedPresetData?.focusDuration || 25] and
    [selectedPresetData?.shortBreakDuration || 5]. *)
Definition valueOf (sel : string) (ps : list TimerPreset)
    : View.TimerSettingsValue :=
  let data := selectedPresetData sel ps in
  {| View.focusDuration := Js.orElse (option_map focusDuration data) 25;
     View.ambientDuration := Js.orElse (option_map shortBreakDuration data) 5;
     View.selectedPreset := sel;
     View.presets := ps |}.

(** [userStore.state.userPomodoroSetting] *)
Record ServerSetting := {
  serverSelectedPreset : string;
  serverPresets : list TimerPreset
}.

(** [timerSettings]: from the server settings when they are loaded,
    otherwise from the stored item, otherwise the defaults. *)
Definition timerSettings (server : option ServerSetting) (raw : StoredItem)
    : View.TimerSettingsValue :=
  match server with
  | Some serverSettings =>
      valueOf (serverSelectedPreset serverSettings)
              (serverPresets serverSettings)
  | None =>
      match raw with
      | ItemSettings parsed =>
          let ps :=
            match presets parsed with
            | None => getDefaultPresets
            | Some stored => mergePresets stored
            end in
          let sel :=
            match selectedPreset parsed with
            | Some sel => if String.eqb sel "" then classicId else sel
            | None => classicId
            end in
          valueOf sel ps
      | ItemMissing | ItemUnreadable =>
          {| View.focusDuration := 25; View.ambientDuration := 5;
             View.selectedPreset := classicId;
             View.presets := getDefaultPresets |}
      end
  end.

(** The arguments of [handlePresetOperation]; an absent field is [None]. *)
Inductive Operation :=
| Create (preset : option TimerPreset)
| Delete (presetId newSelectedPreset : option string)
| Select (newSelectedPreset : option string).

(** [!x] for an optional string: absent or empty. *)
Definition missing (x : option string) : bool :=
  match x with
  | Some v => String.eqb v ""
  | None => true
  end.

Definition textOf (x : option string) : string :=
  match x with
  | Some v => v
  | None => ""
  end.

(** The update that [handlePresetOperation] sends to the store: the new
    selection and the new preset list; [None] when it throws. *)
Definition handlePresetOperation (operation : Operation)
    (current : list TimerPreset) : option (string * list TimerPreset) :=
  match operation with
  | Create None => None
  | Create (Some preset) => Some (id preset, (current ++ [preset])%list)
  | Delete presetId newSelectedPreset =>
      if missing presetId || missing newSelectedPreset then None
      else Some (textOf newSelectedPreset,
                 filter (fun p => negb (String.eqb (id p) (textOf presetId)))
                        current)
  | Select newSelectedPreset =>
      if missing newSelectedPreset then None
      else Some (textOf newSelectedPreset, current)
  end.

(** What the preset details show: the preset of the local selection. *)
Definition currentPreset (localSelectedPreset : string)
    (current : list TimerPreset) : option TimerPreset :=
  findById localSelectedPreset current.

(** The Delete button, which is rendered for a preset that is not a
    default: the operation it starts. *)
Definition deleteClicked (localSelectedPreset : string)
    (current : list TimerPreset) : option Operation :=
  match currentPreset localSelectedPreset current with
  | Some cur =>
      if isDefault cur then None
      else
        let newSelectedPreset :=
          if String.eqb localSelectedPreset (id cur) then classicId
          else localSelectedPreset in
        Some (Delete (Some (id cur)) (Some newSelectedPreset))
  | None => None
  end.

(** The copy that Edit makes of a default preset; [stamp] is
    [Date.now()]. *)
Definition userCopy (stamp : string) (cur : TimerPreset) : TimerPreset :=
  {| id := "custom-" ++ stamp;
     name := name cur ++ " (Custom)";
     description := description cur;
     type := custom;
     focusDuration := focusDuration cur;
     shortBreakDuration := shortBreakDuration cur;
     longBreakDuration := longBreakDuration cur;
     longBreakInterval := longBreakInterval cur;
     autoStartBreaks := autoStartBreaks cur;
     autoStartFocus := autoStartFocus cur;
     isDefault := false |}.

(** The Edit button: the preset that goes into the editor, and the list
    after the copy of a default preset has been created. *)
Definition editClicked (stamp : string) (cur : TimerPreset)
    (current : list TimerPreset) : TimerPreset * list TimerPreset :=
  if isDefault cur
  then (userCopy stamp cur, (current ++ [userCopy stamp cur])%list)
  else (cur, current).

Definition withFocusDuration (v : Z) (p : TimerPreset) : TimerPreset :=
  {| id := id p; name := name p; description := description p;
     type := type p; focusDuration := v;
     shortBreakDuration := shortBreakDuration p;
     longBreakDuration := longBreakDuration p;
     longBreakInterval := longBreakInterval p;
     autoStartBreaks := autoStartBreaks p;
     autoStartFocus := autoStartFocus p; isDefault := isDefault p |}.

Definition withShortBreakDuration (v : Z) (p : TimerPreset) : TimerPreset :=
  {| id := id p; name := name p; description := description p;
     type := type p; focusDuration := focusDuration p;
     shortBreakDuration := v;
     longBreakDuration := longBreakDuration p;
     longBreakInterval := longBreakInterval p;
     autoStartBreaks := autoStartBreaks p;
     autoStartFocus := autoStartFocus p; isDefault := isDefault p |}.

Definition withLongBreakDuration (v : Z) (p : TimerPreset) : TimerPreset :=
  {| id := id p; name := name p; description := description p;
     type := type p; focusDuration := focusDuration p;
     shortBreakDuration := shortBreakDuration p;
     longBreakDuration := v;
     longBreakInterval := longBreakInterval p;
     autoStartBreaks := autoStartBreaks p;
     autoStartFocus := autoStartFocus p; isDefault := isDefault p |}.

(** The fields of the editor and their [onChange]:
    [parseInt(e.target.value) || 25], [|| 5], [|| 15], [|| 4]. *)
Inductive NumberField :=
| FocusDuration
| ShortBreakDuration
| LongBreakDuration
| LongBreakInterval.

Definition fallback (f : NumberField) : Z :=
  match f with
  | FocusDuration => 25
  | ShortBreakDuration => 5
  | LongBreakDuration => 15
  | LongBreakInterval => 4
  end.

Definition fieldOf (f : NumberField) (p : TimerPreset) : Z :=
  match f with
  | FocusDuration => focusDuration p
  | ShortBreakDuration => shortBreakDuration p
  | LongBreakDuration => longBreakDuration p
  | LongBreakInterval => longBreakInterval p
  end.

Definition onChangeNumber (f : NumberField) (editingPreset : TimerPreset)
    (value : string) : TimerPreset :=
  match f with
  | FocusDuration =>
      withFocusDuration (Js.orElse (Js.parseInt value) 25) editingPreset
  | ShortBreakDuration =>
      withShortBreakDuration (Js.orElse (Js.parseInt value) 5) editingPreset
  | LongBreakDuration =>
      withLongBreakDuration (Js.orElse (Js.parseInt value) 15) editingPreset
  | LongBreakInterval => onChangeLongBreakInterval editingPreset value
  end.

Fixpoint typeAll (entries : list (NumberField * string))
    (editingPreset : TimerPreset) : TimerPreset :=
  match entries with
  | [] => editingPreset
  | (f, value) :: rest => typeAll rest (onChangeNumber f editingPreset value)
  end.

End Settings.

(** ** Derived notions used by the statements *)

(** No [switchMode] along the trace. *)
Definition manualSwitchFree (tr : list Action) : bool :=
  forallb (fun a => negb (isSwitchMode a)) tr.

(** Only firings of the interval along the trace. *)
Definition firingsOnly (tr : list Action) : bool := forallb isFiring tr.

(** [n] firings of the one-second interval of the page that displays [s]. *)
Definition ticks (raw : StoredItem) (n : nat) (s : FocusState) : FocusState :=
  run raw (repeat Tick n) s.

(** The clock of [s] is started and left alone until the interval takes the
    [s <= 1] branch: [secondsLeft s] firings, and one firing when nothing is
    left to count. *)
Definition letClockReachZero (raw : StoredItem) (s : FocusState) : FocusState :=
  ticks raw (Z.to_nat (Z.max 1 (secondsLeft s))) (start s).

(** Seconds of each mode under the classic fallback of [getTimerDuration]. *)
Definition classicDuration (mode : TimerMode) : Z :=
  match mode with
  | focus => 1500
  | short_break => 300
  | long_break => 900
  end.

(** Stored settings that select [sel] among [ps]. *)
Definition stored (sel : string) (ps : list TimerPreset) : StoredItem :=
  ItemSettings {| selectedPreset := Some sel; presets := Some ps |}.

(** The built-in presets in the store, with [sel] selected. *)
Definition builtin (sel : string) : StoredItem :=
  stored sel getDefaultPresets.

(** Minutes of a mode in a preset. *)
Definition minutes (p : TimerPreset) (mode : TimerMode) : Z :=
  match mode with
  | focus => focusDuration p
  | short_break => shortBreakDuration p
  | long_break => longBreakDuration p
  end.

(** A classic session left running from mount until one second before the
    end of its fourth focus period (breaks start by themselves). *)
Definition classicUntilFourthFocus : list Action :=
  Start :: repeat Tick (Z.to_nat (3 * (1500 + 300) + 1499)).

(** What holds of the primary's view of the detached window in every state
    it can reach: windows not yet created are not closed; the flag and the
    reference go together; while the flag is up the closure check is
    installed, due within one period, and due no later than one period after
    the referenced window closed. *)
Definition pipInvariant (st : Pip.State) : Prop :=
  (forall w, (Pip.opened st <= w)%nat -> Pip.closedAt st w = None) /\
  (if Pip.isPipActive st then
     exists w t,
       Pip.pipWindowRef st = Some w /\
       (w < Pip.opened st)%nat /\
       Pip.checkDue st = Some t /\
       Pip.now st <= t <= Pip.now st + Pip.checkIntervalMs /\
       (forall tc, Pip.closedAt st w = Some tc -> t <= tc + Pip.checkIntervalMs)
   else
     Pip.pipWindowRef st = None /\ Pip.checkDue st = None).

(** A detached view is opened at time 0 and sent the state of the freshly
    mounted timer; 400 ms later it is closed from outside, and no
    [pagehide] is delivered. *)
Definition pipOpenedThenClosed : list Pip.Event :=
  [Pip.ClickPip Pip.Granted;
   Pip.TimerChanged (Pip.updateOf (initialState ItemMissing)) false;
   Pip.Elapse 400;
   Pip.WindowClosed 0%nat].

(** Then 600 ms pass, the closure check fires, the timer is started (which
    runs the update effect), and 500 ms more pass. *)
Definition pipAfterClosing : list Pip.Event :=
  [Pip.Elapse 600;
   Pip.CheckFires;
   Pip.TimerChanged (Pip.updateOf (start (initialState ItemMissing))) false;
   Pip.Elapse 500].

(** A stored custom preset whose interval is zero (the editor does not
    produce one; the store may hold one). *)
Definition zeroIntervalPreset : TimerPreset :=
  {| id := "custom-0"; name := "Custom Preset";
     description := "A custom timer preset"; type := custom;
     focusDuration := 25; shortBreakDuration := 5; longBreakDuration := 15;
     longBreakInterval := 0; autoStartBreaks := true; autoStartFocus := true;
     isDefault := false |}.

(** The first built-in preset, Classic Pomodoro. *)
Definition classicPreset : TimerPreset :=
  hd (newCustomPreset "0") getDefaultPresets.

(** * Properties *)

(** ** Field lemmas for the setters and the expiry transition *)

Lemma handleTimerCompleteOf_no_preset raw render s :
  getCurrentPreset raw = None -> handleTimerCompleteOf raw render s = s.
Proof.
  intros H. unfold handleTimerCompleteOf. now rewrite H.
Qed.

Lemma handleTimerComplete_no_preset raw s :
  getCurrentPreset raw = None -> handleTimerComplete raw s = s.
Proof.
  apply handleTimerCompleteOf_no_preset.
Qed.

Lemma handleTimerCompleteOf_focus raw preset render s :
  getCurrentPreset raw = Some preset ->
  timerMode render = focus ->
  handleTimerCompleteOf raw render s =
    let n := completedSessions render + 1 in
    let m := if Js.remIsZero n (longBreakInterval preset)
             then long_break else short_break in
    {| timerMode := m; running := autoStartBreaks preset;
       completedSessions := n; secondsLeft := getTimerDuration raw m |}.
Proof.
  intros Hp Hm. unfold handleTimerCompleteOf. rewrite Hp, Hm. reflexivity.
Qed.

Lemma handleTimerCompleteOf_break raw preset render s :
  getCurrentPreset raw = Some preset ->
  timerMode render <> focus ->
  handleTimerCompleteOf raw render s =
    {| timerMode := focus; running := autoStartFocus preset;
       completedSessions := completedSessions s;
       secondsLeft := getTimerDuration raw focus |}.
Proof.
  intros Hp Hm. unfold handleTimerCompleteOf. rewrite Hp.
  destruct (timerMode render); [congruence | reflexivity | reflexivity].
Qed.

Lemma handleTimerComplete_focus raw preset s :
  getCurrentPreset raw = Some preset ->
  timerMode s = focus ->
  handleTimerComplete raw s =
    let n := completedSessions s + 1 in
    let m := if Js.remIsZero n (longBreakInterval preset)
             then long_break else short_break in
    {| timerMode := m; running := autoStartBreaks preset;
       completedSessions := n; secondsLeft := getTimerDuration raw m |}.
Proof.
  apply handleTimerCompleteOf_focus.
Qed.

Lemma handleTimerComplete_break raw preset s :
  getCurrentPreset raw = Some preset ->
  timerMode s <> focus ->
  handleTimerComplete raw s =
    {| timerMode := focus; running := autoStartFocus preset;
       completedSessions := completedSessions s;
       secondsLeft := getTimerDuration raw focus |}.
Proof.
  apply handleTimerCompleteOf_break.
Qed.

Lemma TimerMode_eqb_eq a b : TimerMode_eqb a b = true <-> a = b.
Proof.
  destruct a, b; simpl; split; congruence.
Qed.

Lemma tick_counts_down raw render s :
  1 < secondsLeft s ->
  tick raw render s = setSecondsLeft (secondsLeft s - 1) s.
Proof.
  intros H. unfold tick.
  destruct (Z.leb_spec (secondsLeft s) 1); [lia | reflexivity].
Qed.

Lemma tickWhileRendering_counts_down raw render s :
  1 < secondsLeft s ->
  tickWhileRendering raw render s = setSecondsLeft (secondsLeft s - 1) s.
Proof.
  intros H. unfold tickWhileRendering.
  destruct (Z.leb_spec (secondsLeft s) 1); [lia | reflexivity].
Qed.

(** The last second with the updater run at dispatch: the cell ends at 0
    when it held 1. *)
Lemma tick_last_second raw render s :
  secondsLeft s = 1 ->
  tick raw render s
  = setSecondsLeft 0 (handleTimerCompleteOf raw render (setRunning false s)).
Proof.
  intros H. unfold tick. rewrite H. reflexivity.
Qed.

Lemma tickWhileRendering_last_second raw render s :
  secondsLeft s <= 1 ->
  tickWhileRendering raw render s
  = handleTimerCompleteOf raw render (setRunning false (setSecondsLeft 0 s)).
Proof.
  intros H. unfold tickWhileRendering.
  destruct (Z.leb_spec (secondsLeft s) 1); [reflexivity | lia].
Qed.

(** What a firing may write, whichever handler the interval holds. *)
Lemma firing_cells raw render s (f : StoredItem -> FocusState -> FocusState -> FocusState) :
  f = tick \/ f = tickWhileRendering ->
  (1 < secondsLeft s /\ f raw render s = setSecondsLeft (secondsLeft s - 1) s) \/
  (secondsLeft s <= 1 /\
   exists seconds, 
     f raw render s
     = setSecondsLeft seconds (handleTimerCompleteOf raw render (setRunning false s)) /\
     (seconds = 0 \/
      seconds = secondsLeft (handleTimerCompleteOf raw render (setRunning false s)) \/
      exists mode, getCurrentPreset raw <> None /\ seconds = getTimerDuration raw mode)).
Proof.
  intros Hf.
  destruct (Z.leb_spec (secondsLeft s) 1) as [Hle | Hgt].
  - right. split; [exact Hle |].
    destruct Hf as [-> | ->].
    + unfold tick. destruct (Z.leb_spec (secondsLeft s) 1); [| lia].
      cbv zeta. destruct (secondsLeft s =? 0).
      * eexists. split; [| right; left; reflexivity].
        now destruct (handleTimerCompleteOf raw render (setRunning false s)).
      * exists 0. split; [reflexivity | now left].
    + rewrite tickWhileRendering_last_second by exact Hle.
      unfold handleTimerCompleteOf.
      destruct (getCurrentPreset raw) as [preset |] eqn:Hp.
      * destruct (timerMode render); simpl;
          (eexists; split; [reflexivity |]; right; right; eexists;
           split; [discriminate | reflexivity]).
      * exists 0. split; [reflexivity | now left].
  - left. split; [exact Hgt |].
    destruct Hf as [-> | ->];
      [now apply tick_counts_down | now apply tickWhileRendering_counts_down].
Qed.

(** The classic preset: a focus period started at mount and left to run
    out ends in a running short break; the clock shows 0 when the updater
    ran at dispatch and 300 seconds when it ran while rendering. *)
Example classic_first_focus_expiry :
  run (builtin "pomodoro-classic") (Start :: repeat Tick 1500)
      (initialState (builtin "pomodoro-classic"))
  = {| timerMode := short_break; running := true;
       completedSessions := 1; secondsLeft := 0 |} /\
  run (builtin "pomodoro-classic") (Start :: repeat TickWhileRendering 1500)
      (initialState (builtin "pomodoro-classic"))
  = {| timerMode := short_break; running := true;
       completedSessions := 1; secondsLeft := 300 |}.
Proof.
  split; vm_compute; reflexivity.
Qed.

(** With nothing stored the timer counts the classic 25 minutes down and
    stops at zero in focus mode. *)
Example unset_store_focus_expiry :
  run ItemMissing (Start :: repeat Tick 1500) (initialState ItemMissing)
  = {| timerMode := focus; running := false;
       completedSessions := 0; secondsLeft := 0 |}.
Proof.
  vm_compute. reflexivity.
Qed.

(** ** Arithmetic of the long-break test *)

Lemma remIsZero_divide n k :
  k <> 0 -> (Js.remIsZero n k = true <-> (k | n)).
Proof.
  intros Hk. unfold Js.remIsZero.
  destruct (Z.eqb_spec k 0); [contradiction |].
  rewrite Z.eqb_eq. now apply Z.rem_divide.
Qed.

Lemma remIsZero_in_cycle c0 k j :
  1 <= k -> Z.rem c0 k = 0 -> 1 <= j <= k ->
  Js.remIsZero (c0 + j) k = (j =? k).
Proof.
  intros Hk Hc Hj.
  assert (Hk0 : k <> 0) by lia.
  apply Z.rem_divide in Hc; [| exact Hk0].
  destruct (Z.eqb_spec j k) as [-> | Hne].
  - apply remIsZero_divide; [exact Hk0 |].
    apply Z.divide_add_r; [exact Hc | apply Z.divide_refl].
  - destruct (Js.remIsZero (c0 + j) k) eqn:E; [| reflexivity].
    apply remIsZero_divide in E; [| exact Hk0].
    assert (Hd : (k | j)).
    { replace j with ((c0 + j) - c0) by lia. now apply Z.divide_sub_r. }
    apply Z.divide_pos_le in Hd; lia.
Qed.

(** ** Pages and the interval they hold *)

Lemma runPage_app raw tr1 tr2 : forall p,
  runPage raw (tr1 ++ tr2) p = runPage raw tr2 (runPage raw tr1 p).
Proof.
  induction tr1 as [| a tr1 IH]; intros p; simpl; [reflexivity | apply IH].
Qed.

Lemma run_Start raw tr s :
  running s = false ->
  run raw (Start :: tr) s
  = cells (runPage raw tr {| cells := start s; intervalOf := Some (start s) |}).
Proof.
  intros Hr. unfold run, mounted. rewrite Hr. simpl.
  unfold stepPage, effectOnRunning. simpl. rewrite Hr. reflexivity.
Qed.

(** A firing of either kind on a page that holds an interval. *)
Lemma stepPage_firing raw a render s :
  isFiring a = true ->
  exists f, (f = tick \/ f = tickWhileRendering) /\
    stepPage raw a {| cells := s; intervalOf := Some render |}
    = {| cells := f raw render s;
         intervalOf := effectOnRunning s (f raw render s) (Some render) |}.
Proof.
  destruct a; try discriminate; intros _.
  - exists tick. split; [now left | reflexivity].
  - exists tickWhileRendering. split; [now right | reflexivity].
Qed.

(** While more than one second is left, firings count down and change
    nothing else. *)
Lemma runPage_counts_down raw render tr : forall s,
  firingsOnly tr = true ->
  running s = true ->
  Z.of_nat (List.length tr) < secondsLeft s ->
  runPage raw tr {| cells := s; intervalOf := Some render |}
  = {| cells := setSecondsLeft (secondsLeft s - Z.of_nat (List.length tr)) s;
       intervalOf := Some render |}.
Proof.
  induction tr as [| a tr IH]; intros s Hf Hr Hs.
  - simpl. rewrite Z.sub_0_r. now destruct s.
  - simpl in Hf. apply andb_prop in Hf as [Ha Htr].
    rewrite length_cons, Nat2Z.inj_succ in *.
    destruct (stepPage_firing raw a render s Ha) as (f & Hf & Hstep).
    simpl runPage. rewrite Hstep.
    destruct (firing_cells raw render s f Hf) as [[_ Hc] | [Hle _]]; [| lia].
    rewrite Hc. unfold effectOnRunning. simpl. rewrite Bool.eqb_reflx.
    rewrite IH; [| exact Htr | exact Hr | simpl; lia].
    unfold setSecondsLeft. simpl. do 2 f_equal. lia.
Qed.

(** ** The interval under a preset that starts its breaks by itself *)

Section HeldHandler.

Variable raw : StoredItem.
Variable preset : TimerPreset.
Hypothesis current : getCurrentPreset raw = Some preset.
Hypothesis autoStart : autoStartBreaks preset = true.

Variable render : FocusState.
Hypothesis inFocus : timerMode render = focus.

(** An interval installed in focus mode is never replaced while only it
    fires: every expiry is handled as the end of that focus session, and
    since the break starts by itself [running] does not change. *)
Lemma held_focus_handler tr : forall p,
  firingsOnly tr = true ->
  intervalOf p = Some render ->
  running (cells p) = true ->
  intervalOf (runPage raw tr p) = Some render /\
  running (cells (runPage raw tr p)) = true /\
  ((timerMode (cells (runPage raw tr p)) = timerMode (cells p) /\
    completedSessions (cells (runPage raw tr p)) = completedSessions (cells p))
   \/
   (timerMode (cells (runPage raw tr p))
    = (if Js.remIsZero (completedSessions render + 1) (longBreakInterval preset)
       then long_break else short_break) /\
    completedSessions (cells (runPage raw tr p)) = completedSessions render + 1)).
Proof using current autoStart inFocus.
  induction tr as [| a tr IH]; intros [s held] Hf Hheld Hr;
    simpl in Hheld, Hr; subst held.
  - simpl. split; [reflexivity |]. split; [exact Hr |]. now left.
  - simpl in Hf. apply andb_prop in Hf as [Ha Htr].
    destruct (stepPage_firing raw a render s Ha) as (f & Hf & Hstep).
    simpl runPage. rewrite Hstep.
    assert (Hcells :
      running (f raw render s) = true /\
      ((timerMode (f raw render s) = timerMode s /\
        completedSessions (f raw render s) = completedSessions s) \/
       (timerMode (f raw render s)
        = (if Js.remIsZero (completedSessions render + 1)
                (longBreakInterval preset)
           then long_break else short_break) /\
        completedSessions (f raw render s) = completedSessions render + 1))).
    { destruct (firing_cells raw render s f Hf)
        as [[_ Hc] | [_ (seconds & Hc & _)]]; rewrite Hc.
      - simpl. split; [exact Hr |]. now left.
      - rewrite (handleTimerCompleteOf_focus raw preset) by assumption.
        simpl. split; [exact autoStart |]. right. split; reflexivity. }
    destruct Hcells as [Hr1 Hm1].
    unfold effectOnRunning. rewrite Hr, Hr1. simpl Bool.eqb. cbv iota.
    destruct (IH {| cells := f raw render s; intervalOf := Some render |}
                Htr eq_refl Hr1) as (Hi & Hr' & Hm').
    split; [exact Hi |]. split; [exact Hr' |].
    simpl cells in Hm' |- *.
    destruct Hm' as [[Hm Hc] | Hm']; [| now right].
    destruct Hm1 as [[Hm1 Hc1] | [Hm1 Hc1]]; [left | right];
      split; congruence.
Qed.

End HeldHandler.

(** ** C1 *)

(** C1 does not hold of the code.  [handleTimerComplete] itself implements
    the rule: called in focus mode with the counter at [c] it stores
    [c + 1], goes to [long-break] when the interval divides [c + 1] and to
    [short-break] otherwise, sets the new mode's duration and
    [autoStartBreaks].  But the one-second interval calls the
    [handleTimerComplete] of the render in which [running] last changed.
    Under a preset that starts its breaks by itself [running] never changes
    again, so every expiry is handled as the end of the first focus session:
    under Classic Pomodoro, left running from mount, the counter stays at 1
    and the mode at [short-break], also at the firing that should end the
    fourth focus period.  In general, when breaks start by themselves and
    the interval does not divide 1, no number of firings after Start leads
    to [long-break] or takes the counter beyond 1. *)
Theorem interval_handler_never_reaches_long_break :
  (forall raw preset s,
     getCurrentPreset raw = Some preset ->
     timerMode s = focus ->
     let s' := handleTimerComplete raw s in
     completedSessions s' = completedSessions s + 1 /\
     timerMode s' =
       (if Js.remIsZero (completedSessions s + 1) (longBreakInterval preset)
        then long_break else short_break) /\
     secondsLeft s' = getTimerDuration raw (timerMode s') /\
     running s' = autoStartBreaks preset) /\
  (let raw := builtin "pomodoro-classic" in
   let s0 := initialState raw in
   (exists p, getCurrentPreset raw = Some p /\
              longBreakInterval p = 4 /\ autoStartBreaks p = true) /\
   run raw (Start :: repeat Tick 1500) s0
   = {| timerMode := short_break; running := true;
        completedSessions := 1; secondsLeft := 0 |} /\
   timerMode (run raw (classicUntilFourthFocus ++ [Tick]) s0) = short_break /\
   completedSessions (run raw (classicUntilFourthFocus ++ [Tick]) s0) = 1) /\
  (forall raw preset tr,
     getCurrentPreset raw = Some preset ->
     autoStartBreaks preset = true ->
     Js.remIsZero 1 (longBreakInterval preset) = false ->
     firingsOnly tr = true ->
     let s' := run raw (Start :: tr) (initialState raw) in
     timerMode s' <> long_break /\ completedSessions s' <= 1).
Proof.
  split; [| split].
  - intros raw preset s Hp Hm s'. subst s'.
    rewrite (handleTimerComplete_focus raw preset s Hp Hm). simpl.
    repeat split.
  - cbv zeta. split.
    + eexists. split; [vm_compute; reflexivity |]. split; reflexivity.
    + repeat split; vm_compute; reflexivity.
  - intros raw preset tr Hp Hauto Hk Hf s'. subst s'.
    rewrite run_Start by reflexivity.
    destruct (held_focus_handler raw preset Hp Hauto
                (start (initialState raw)) eq_refl tr
                {| cells := start (initialState raw);
                   intervalOf := Some (start (initialState raw)) |}
                Hf eq_refl eq_refl) as (_ & _ & [[Hm Hc] | [Hm Hc]]).
    + rewrite Hm, Hc. simpl. split; [discriminate | lia].
    + rewrite Hm, Hc. simpl. rewrite Hk. split; [discriminate | lia].
Qed.

(** ** C5 *)

(** C5 does not hold of the code.  [handleTimerComplete] itself does what
    the claim says when it is called in a break: mode [focus], the focus
    duration, [autoStartFocus], counter unchanged.  But a break that started
    by itself is timed by the interval installed during the focus period,
    which calls the handler of that render: the end of the break is handled
    as the end of the focus session once more.  Under Classic Pomodoro the
    firing after the one that ended the first focus period (the clock shows
    0) ends the short break, and the mode is [short-break] again with the
    counter at 1.  In general, under a preset that starts its breaks by itself, a
    timer started at mount and left to its interval never comes back to
    [focus] once it has left it. *)
Theorem interval_handler_never_returns_to_focus :
  (forall raw preset s,
     getCurrentPreset raw = Some preset ->
     timerMode s = short_break \/ timerMode s = long_break ->
     let s' := handleTimerComplete raw s in
     timerMode s' = focus /\
     secondsLeft s' = focusDuration preset * 60 /\
     running s' = autoStartFocus preset /\
     completedSessions s' = completedSessions s) /\
  (let raw := builtin "pomodoro-classic" in
   let s0 := initialState raw in
   run raw (Start :: repeat Tick 1500) s0
   = {| timerMode := short_break; running := true;
        completedSessions := 1; secondsLeft := 0 |} /\
   timerMode (run raw (Start :: repeat Tick 1501) s0) = short_break /\
   completedSessions (run raw (Start :: repeat Tick 1501) s0) = 1) /\
  (forall raw preset tr1 tr2,
     getCurrentPreset raw = Some preset ->
     autoStartBreaks preset = true ->
     firingsOnly tr1 = true ->
     firingsOnly tr2 = true ->
     timerMode (run raw (Start :: tr1) (initialState raw)) <> focus ->
     timerMode (run raw (Start :: tr1 ++ tr2) (initialState raw)) <> focus).
Proof.
  split; [| split].
  - intros raw preset s Hp Hm s'.
    assert (Hnf : timerMode s <> focus)
      by (destruct Hm as [-> | ->]; discriminate).
    subst s'. rewrite (handleTimerComplete_break raw preset s Hp Hnf). simpl.
    repeat split. unfold getTimerDuration. now rewrite Hp.
  - cbv zeta. repeat split; vm_compute; reflexivity.
  - intros raw preset tr1 tr2 Hp Hauto Hf1 Hf2.
    rewrite !run_Start by reflexivity. rewrite runPage_app.
    set (p0 := {| cells := start (initialState raw);
                  intervalOf := Some (start (initialState raw)) |}).
    destruct (held_focus_handler raw preset Hp Hauto
                (start (initialState raw)) eq_refl tr1 p0 Hf1 eq_refl eq_refl)
      as (Hi1 & Hr1 & _).
    destruct (held_focus_handler raw preset Hp Hauto
                (start (initialState raw)) eq_refl tr2 (runPage raw tr1 p0)
                Hf2 Hi1 Hr1) as (_ & _ & [[Hm _] | [Hm _]]).
    + intros H. now rewrite Hm.
    + intros _. rewrite Hm. destruct (Js.remIsZero _ _); discriminate.
Qed.

(** ** C6 *)

(** C6. [reset] sets [running] to false and [secondsLeft] to the full
    duration of the current mode (the preset's minutes times 60, the classic
    duration when no preset is current); [timerMode] and
    [completedSessions] are unchanged. *)
Theorem reset_restores_full_duration :
  forall raw s,
    running (reset raw s) = false /\
    secondsLeft (reset raw s) = getTimerDuration raw (timerMode s) /\
    secondsLeft (reset raw s) =
      match getCurrentPreset raw with
      | Some p => minutes p (timerMode s) * 60
      | None => classicDuration (timerMode s)
      end /\
    timerMode (reset raw s) = timerMode s /\
    completedSessions (reset raw s) = completedSessions s.
Proof.
  intros raw s. unfold reset, resetOf. simpl. repeat split.
  unfold getTimerDuration.
  destruct (getCurrentPreset raw); destruct (timerMode s); reflexivity.
Qed.

(** ** C7 *)


(** ** C9 *)

Lemma fieldIs_true f lit : fieldIs f lit = true <-> f = Some lit.
Proof.
  destruct f as [v |]; simpl.
  - rewrite String.eqb_eq. split; congruence.
  - split; discriminate.
Qed.

Lemma fieldIs_false f lit : fieldIs f lit = false <-> f <> Some lit.
Proof.
  rewrite <- fieldIs_true. destruct (fieldIs f lit); split; congruence.
Qed.

(** The [reset] that the message listener calls: the clock stops and shows
    the focus duration, whatever the mode is. *)
Lemma listener_reset raw s :
  resetOf raw (initialState raw) s
  = setSecondsLeft (getTimerDuration raw focus) (stop s).
Proof. reflexivity. Qed.

(** C9 does not hold of the code for [reset].  A message whose payload
    carries a type and an action never raises, changes the session state
    only if the type is [pip-control] and the action is [start], [stop] or
    [reset], and [start] and [stop] are the local operations; any other
    type or action ([skip] and [switch-mode] among them) leaves the state
    unchanged.  But the [reset] that the listener calls is the one of the
    first render: it stops the clock and sets the focus duration, where the
    local [reset] sets the duration of the current mode.  With nothing
    stored, a [reset] message during a long break leaves 1500 seconds on the
    clock, the Reset button 900. *)
Theorem handleMessage_resets_to_the_focus_duration :
  forall raw t act s,
    (exists s',
       handleMessage raw (DataValue t act) s = Some s' /\
       (s' <> s ->
        t = Some "pip-control" /\
        (act = Some "start" \/ act = Some "stop" \/ act = Some "reset")) /\
       (t = Some "pip-control" ->
        (act = Some "start" -> s' = start s) /\
        (act = Some "stop" -> s' = stop s) /\
        (act = Some "reset" ->
         s' = setSecondsLeft (getTimerDuration raw focus) (stop s) /\
         (timerMode s = focus -> s' = reset raw s))) /\
       (t <> Some "pip-control" \/
        (act <> Some "start" /\ act <> Some "stop" /\ act <> Some "reset") ->
        s' = s)) /\
    handleMessage raw (DataValue (Some "pip-control") (Some "skip")) s
    = Some s /\
    handleMessage raw (DataValue (Some "pip-control") (Some "switch-mode")) s
    = Some s /\
    (let inLongBreak := {| timerMode := long_break; running := true;
                           completedSessions := 4; secondsLeft := 600 |} in
     handleMessage ItemMissing
       (DataValue (Some "pip-control") (Some "reset")) inLongBreak
     = Some {| timerMode := long_break; running := false;
               completedSessions := 4; secondsLeft := 1500 |} /\
     reset ItemMissing inLongBreak
     = {| timerMode := long_break; running := false;
          completedSessions := 4; secondsLeft := 900 |}).
Proof.
  intros raw t act s.
  split; [| split; [reflexivity | split; [reflexivity | split; reflexivity]]].
  simpl.
  destruct (fieldIs t "pip-control") eqn:Ht.
  - apply fieldIs_true in Ht.
    destruct (fieldIs act "start") eqn:Ha1;
      [| destruct (fieldIs act "stop") eqn:Ha2;
         [| destruct (fieldIs act "reset") eqn:Ha3 ] ].
    + apply fieldIs_true in Ha1. subst.
      exists (start s). repeat split; auto; try discriminate.
      intros [H | (H & _)]; congruence.
    + apply fieldIs_true in Ha2. subst.
      exists (stop s). repeat split; auto; try discriminate.
      intros [H | (_ & H & _)]; congruence.
    + apply fieldIs_true in Ha3. subst.
      exists (resetOf raw (initialState raw) s).
      split; [reflexivity |]. split; [auto |]. split.
      * intros _. split; [discriminate |]. split; [discriminate |].
        intros _. split; [apply listener_reset |].
        intros Hm. unfold reset, resetOf. now rewrite Hm.
      * intros [H | (_ & _ & H)]; congruence.
    + apply fieldIs_false in Ha1, Ha2, Ha3.
      exists s. repeat split; auto; congruence.
  - apply fieldIs_false in Ht.
    exists s. repeat split; auto; congruence.
Qed.

(** ** C3 *)

(** C3, as the code has it. For every selected id and preset list,
    [getCurrentPreset] yields a preset of the list with that id when there
    is one and [null] otherwise; it never raises.  On [null] the duration
    lookup answers with the classic 25/5/15 minutes, so [reset] and
    [switchMode] still run on those, while the expiry transition leaves the
    session state as it is. *)
Theorem getCurrentPreset_match_or_null :
  (getCurrentPreset ItemMissing = None /\
   getCurrentPreset ItemUnreadable = None) /\
  forall sel ps,
    let raw := stored sel ps in
    match getCurrentPreset raw with
    | Some p => In p ps /\ id p = sel
    | None =>
        (forall p, In p ps -> id p <> sel) /\
        (forall mode, getTimerDuration raw mode = classicDuration mode) /\
        (forall s, handleTimerComplete raw s = s) /\
        (forall s, reset raw s
                   = setSecondsLeft (classicDuration (timerMode s)) (stop s)) /\
        (forall s m, secondsLeft (switchMode raw m s) = classicDuration m)
    end.
Proof.
  split; [now split |].
  intros sel ps raw.
  destruct (getCurrentPreset raw) as [p |] eqn:E.
  - unfold raw, stored in E. simpl in E.
    apply find_some in E as [Hin Hid]. simpl in Hid.
    apply String.eqb_eq in Hid. now split.
  - assert (Hdur : forall mode, getTimerDuration raw mode = classicDuration mode).
    { intros mode. unfold getTimerDuration. rewrite E. now destruct mode. }
    repeat split.
    + intros p Hin Hid. unfold raw, stored in E. simpl in E.
      pose proof (find_none _ _ E p Hin) as Hn. simpl in Hn.
      apply String.eqb_neq in Hn. contradiction.
    + exact Hdur.
    + intros s. now apply handleTimerComplete_no_preset.
    + intros s. unfold reset, resetOf, stop. now rewrite Hdur.
    + intros s m. destruct m; simpl; apply Hdur.
Qed.

(** C3 fails as stated: with the built-in presets stored and an id selected
    that none of them has, the lookup is [null], not Classic Pomodoro; the
    expiry transition does nothing, where under Classic Pomodoro the same
    call goes to a running short break of 300 seconds; and a focus period
    running out leaves the mode at [focus] with the clock stopped at
    zero. *)
Lemma unknown_selection_is_null_and_expiry_does_nothing :
  getCurrentPreset (builtin "custom-1700000000000") = None /\
  handleTimerComplete (builtin "custom-1700000000000")
    {| timerMode := focus; running := false;
       completedSessions := 0; secondsLeft := 0 |}
  = {| timerMode := focus; running := false;
       completedSessions := 0; secondsLeft := 0 |} /\
  handleTimerComplete (builtin "pomodoro-classic")
    {| timerMode := focus; running := false;
       completedSessions := 0; secondsLeft := 0 |}
  = {| timerMode := short_break; running := true;
       completedSessions := 1; secondsLeft := 300 |} /\
  clockTick (builtin "custom-1700000000000")
    {| timerMode := focus; running := true;
       completedSessions := 0; secondsLeft := 1 |}
  = {| timerMode := focus; running := false;
       completedSessions := 0; secondsLeft := 0 |}.
Proof.
  repeat split; vm_compute; reflexivity.
Qed.

(** ** C4 *)

(** What the handler writes does not depend on the seconds the cells
    hold, once the clock is set to 0 afterwards. *)
Lemma expiry_forgets_seconds raw render s n :
  setSecondsLeft 0
    (handleTimerCompleteOf raw render (setRunning false (setSecondsLeft n s)))
  = setSecondsLeft 0 (handleTimerCompleteOf raw render (setRunning false s)).
Proof.
  unfold handleTimerCompleteOf.
  destruct (getCurrentPreset raw); [destruct (timerMode render) |];
    reflexivity.
Qed.

(** A running clock with [m >= 1] seconds, left to the interval that is in
    place: the [m]-th firing (updater run at dispatch) ends at 0 with what
    the handler held by the interval writes. *)
Lemma clock_runs_out raw render s m :
  running s = true ->
  secondsLeft s = Z.of_nat m ->
  (1 <= m)%nat ->
  cells (runPage raw (repeat Tick m) {| cells := s; intervalOf := Some render |})
  = setSecondsLeft 0 (handleTimerCompleteOf raw render (setRunning false s)).
Proof.
  intros Hr Hs Hm. destruct m as [| k]; [lia |].
  change (repeat Tick (S k)) with (Tick :: repeat Tick k).
  rewrite repeat_cons, runPage_app.
  rewrite runPage_counts_down;
    [| apply forallb_forall; intros a Ha; apply repeat_spec in Ha; now subst
     | exact Hr | rewrite repeat_length; lia].
  rewrite repeat_length. simpl.
  rewrite tick_last_second by (simpl; lia).
  apply expiry_forgets_seconds.
Qed.

(** With at most one second on the clock the first firing is the
    expiry. *)
Lemma clock_runs_out_at_once raw render s :
  secondsLeft s <= 1 ->
  exists seconds,
    cells (runPage raw [Tick] {| cells := s; intervalOf := Some render |})
    = setSecondsLeft seconds
        (handleTimerCompleteOf raw render (setRunning false s)).
Proof.
  intros Hs. simpl.
  destruct (firing_cells raw render s tick (or_introl eq_refl))
    as [[Hgt _] | [_ (seconds & Hc & _)]]; [lia |].
  exists seconds. exact Hc.
Qed.

Lemma mounted_started s :
  mounted (start s) = {| cells := start s; intervalOf := Some (start s) |}.
Proof. reflexivity. Qed.

(** Letting the clock run out from the page that displays [s]: the state
    that the handler of that render writes, up to the seconds. *)
Lemma letClockReachZero_expires raw s :
  exists seconds,
    letClockReachZero raw s
    = setSecondsLeft seconds (handleTimerCompleteOf raw s (stop s)).
Proof.
  unfold letClockReachZero, ticks, run. rewrite mounted_started.
  assert (Hsame : forall x,
            handleTimerCompleteOf raw (start s) x = handleTimerCompleteOf raw s x)
    by reflexivity.
  destruct (Z.leb_spec (secondsLeft s) 1) as [Hle | Hgt].
  - rewrite Z.max_l by lia. change (Z.to_nat 1) with 1%nat.
    destruct (clock_runs_out_at_once raw (start s) (start s) Hle)
      as (seconds & Hc).
    exists seconds. change (repeat Tick 1) with [Tick].
    rewrite Hc, Hsame. reflexivity.
  - rewrite Z.max_r by lia. exists 0.
    rewrite clock_runs_out; [| reflexivity | simpl; lia | lia].
    rewrite Hsame. reflexivity.
Qed.

Lemma letClockReachZero_no_preset raw s :
  getCurrentPreset raw = None ->
  letClockReachZero raw s = setSecondsLeft 0 (stop s).
Proof.
  intros E. unfold letClockReachZero, ticks, run. rewrite mounted_started.
  destruct (Z.leb_spec (secondsLeft s) 1) as [Hle | Hgt].
  - rewrite Z.max_l by lia. change (Z.to_nat 1) with 1%nat.
    simpl. unfold tick. simpl.
    destruct (Z.leb_spec (secondsLeft s) 1); [| lia].
    rewrite handleTimerCompleteOf_no_preset by exact E.
    destruct (Z.eqb_spec (secondsLeft s) 0) as [Hz | Hz]; [| reflexivity].
    destruct s as [m r c sl]; simpl in *; subst sl; reflexivity.
  - rewrite Z.max_r by lia.
    rewrite clock_runs_out; [| reflexivity | simpl; lia | lia].
    now rewrite handleTimerCompleteOf_no_preset by exact E.
Qed.

(** C4, as the code has it. [skip] stops the clock and runs the expiry
    transition of the render on display.  When a preset is current, the
    result does not depend on the time that was left, and it has the mode,
    the counter and the running flag that the page reaches when the clock
    is started in that state and left to run out.  When none is, [skip]
    only stops the clock and keeps the seconds, whereas the clock running
    out stops at zero. *)
Theorem skip_forces_expiry_under_a_preset :
  forall raw s,
    skip raw s = handleTimerComplete raw (stop s) /\
    match getCurrentPreset raw with
    | Some _ =>
        (forall n, skip raw (setSecondsLeft n s) = skip raw s) /\
        (running s = false ->
         timerMode (letClockReachZero raw s) = timerMode (skip raw s) /\
         completedSessions (letClockReachZero raw s)
         = completedSessions (skip raw s) /\
         running (letClockReachZero raw s) = running (skip raw s))
    | None =>
        skip raw s = stop s /\
        letClockReachZero raw s = setSecondsLeft 0 (stop s)
    end.
Proof.
  intros raw s. split; [reflexivity |].
  destruct (getCurrentPreset raw) as [p |] eqn:E.
  - split.
    + intros n. unfold skip, handleTimerComplete, handleTimerCompleteOf.
      rewrite E. destruct s as [m r c sl]; destruct m; reflexivity.
    + intros _. destruct (letClockReachZero_expires raw s) as (seconds & ->).
      unfold skip, stop, handleTimerComplete, handleTimerCompleteOf.
      rewrite E. destruct s as [m r c sl]; destruct m; repeat split.
  - split.
    + unfold skip. now rewrite handleTimerComplete_no_preset.
    + now apply letClockReachZero_no_preset.
Qed.

(** C4 fails as stated: with nothing stored, skipping a fresh focus period
    leaves 1500 seconds on the stopped clock, and letting it run out leaves
    0. *)
Lemma skip_differs_from_expiry_without_preset :
  skip ItemMissing (initialState ItemMissing)
  = {| timerMode := focus; running := false;
       completedSessions := 0; secondsLeft := 1500 |} /\
  letClockReachZero ItemMissing (initialState ItemMissing)
  = {| timerMode := focus; running := false;
       completedSessions := 0; secondsLeft := 0 |} /\
  skip ItemMissing (initialState ItemMissing)
  <> letClockReachZero ItemMissing (initialState ItemMissing).
Proof.
  repeat split; try (vm_compute; reflexivity).
  vm_compute. discriminate.
Qed.

(** ** C2 *)


(** ** C8 *)

Lemma parseInt_samples :
  Js.parseInt "-3" = Some (-3) /\
  Js.parseInt "0" = Some 0 /\
  Js.parseInt "" = None /\
  Js.parseInt "7" = Some 7 /\
  Js.parseInt " 12px" = Some 12 /\
  Js.parseInt "abc" = None.
Proof.
  repeat split; vm_compute; reflexivity.
Qed.

(** C8 does not hold of the code. The input repairs an empty or zero entry
    to 4 but keeps a negative one: typing [-3] puts [-3] in the edited
    preset, [Save] stores it, and the expiry transition then takes the
    remainder by [-3] (a long break after the third session).  In general
    the stored interval is the parsed entry unless that is [NaN] or 0, so
    every entry that parses to a negative number is stored as it is. *)
Theorem negative_longBreakInterval_is_stored :
  (let edited := onChangeLongBreakInterval (newCustomPreset "1") "-3" in
   let saved :=
     savePresets (getDefaultPresets ++ [newCustomPreset "1"]) edited in
   let raw := stored "custom-1" saved in
   longBreakInterval (onChangeLongBreakInterval (newCustomPreset "1") "0") = 4 /\
   longBreakInterval (onChangeLongBreakInterval (newCustomPreset "1") "") = 4 /\
   longBreakInterval edited = -3 /\
   In edited saved /\
   getCurrentPreset raw = Some edited /\
   handleTimerComplete raw
     {| timerMode := focus; running := false;
        completedSessions := 2; secondsLeft := 0 |}
   = {| timerMode := long_break; running := true;
        completedSessions := 3; secondsLeft := 900 |}) /\
  (forall p v n,
     Js.parseInt v = Some n -> n < 0 ->
     longBreakInterval (onChangeLongBreakInterval p v) = n).
Proof.
  split.
  - cbv zeta. repeat split; try (vm_compute; reflexivity).
    vm_compute. do 7 right. left. reflexivity.
  - intros p v n Hv Hn. simpl. rewrite Hv. simpl.
    destruct (Z.eqb_spec n 0); [lia | reflexivity].
Qed.

(** ** C10 *)

Section PipInvariant.

Import Pip.

Lemma forget_fields st :
  pipWindowRef (forget st) = None /\
  isPipActive (forget st) = false /\
  checkDue (forget st) = (if isPipActive st then None else checkDue st) /\
  now (forget st) = now st /\
  closedAt (forget st) = closedAt st /\
  opened (forget st) = opened st /\
  posted (forget st) = posted st.
Proof.
  unfold forget, setIsPipActive.
  destruct (isPipActive st) eqn:E; simpl; rewrite ?E; simpl; repeat split.
Qed.

Lemma pipInvariant_forget_weak st :
  (forall w, (opened st <= w)%nat -> closedAt st w = None) ->
  (isPipActive st = false -> checkDue st = None) ->
  pipInvariant (forget st).
Proof.
  intros Hfresh Hdue.
  destruct (forget_fields st) as (Hr & Ha & Hd & _ & Hc & Ho & _).
  unfold pipInvariant. rewrite Ha, Hr, Hd, Hc, Ho.
  split; [exact Hfresh |].
  destruct (isPipActive st); [now split | now split; [| apply Hdue]].
Qed.

Lemma pipInvariant_forget st : pipInvariant st -> pipInvariant (forget st).
Proof.
  intros [Hfresh Hflag]. apply pipInvariant_forget_weak; [exact Hfresh |].
  intros E. rewrite E in Hflag. now destruct Hflag.
Qed.

Lemma pipInvariant_closeWindow st w :
  (w < opened st)%nat -> pipInvariant st -> pipInvariant (closeWindow w st).
Proof.
  intros Hw [Hfresh Hflag]. unfold pipInvariant. simpl. split.
  - intros x Hx. destruct (Nat.eqb_spec x w); [lia | now apply Hfresh].
  - destruct (isPipActive st); [| exact Hflag].
    destruct Hflag as (w0 & t & Hr & Hlt & Hd & Hnow & Hc).
    exists w0, t. repeat split; try assumption; try lia.
    intros tc. destruct (Nat.eqb_spec w0 w) as [-> | Hne]; [| apply Hc].
    destruct (closedAt st w) as [t0 |] eqn:E.
    + intros [= <-]. now apply Hc.
    + intros [= <-]. lia.
Qed.

Lemma pipInvariant_init : pipInvariant init.
Proof.
  split; simpl; auto.
Qed.

Lemma pipInvariant_fire e st st' :
  pipInvariant st -> fire e st = Some st' -> pipInvariant st'.
Proof.
  intros Hinv Hfire.
  destruct e as [r | w | w | u thr | | ms]; simpl in Hfire.
  - (* ClickPip *)
    injection Hfire as <-. unfold togglePip.
    pose proof Hinv as [Hfresh Hflag].
    destruct (isPipActive st) eqn:Ea.
    + destruct Hflag as (w0 & t & Hr & Hlt & _). rewrite Hr.
      apply pipInvariant_forget. now apply pipInvariant_closeWindow.
    + destruct Hflag as [Hr Hd].
      assert (Hopen : pipInvariant (setIsPipActive true (newWindow st))).
      { unfold setIsPipActive, newWindow, pipInvariant. simpl.
        rewrite Ea. simpl. split.
        - intros x Hx. apply Hfresh. lia.
        - exists (opened st), (now st + checkIntervalMs).
          repeat split; try lia; try (unfold checkIntervalMs; lia).
          intros tc Htc. rewrite Hfresh in Htc by lia. discriminate. }
      destruct (pipWindowRef st); destruct r; assumption.
  - (* WindowClosed *)
    destruct ((w <? opened st)%nat && negb (isClosed st w)) eqn:G;
      [| discriminate].
    injection Hfire as <-. apply andb_prop in G as [G _].
    apply Nat.ltb_lt in G. now apply pipInvariant_closeWindow.
  - (* PageHide *)
    destruct (w <? opened st)%nat; [| discriminate].
    injection Hfire as <-. now apply pipInvariant_forget.
  - (* TimerChanged *)
    injection Hfire as <-. unfold pipUpdateEffect.
    destruct (pipWindowRef st) as [w |]; [| exact Hinv].
    destruct (negb (isClosed st w)).
    + destruct thr; [now apply pipInvariant_forget | exact Hinv].
    + destruct (isPipActive st) eqn:Ea;
        [now apply pipInvariant_forget | exact Hinv].
  - (* CheckFires *)
    unfold intervalFires in Hfire.
    destruct (checkDue st) as [t |] eqn:Ed; [| discriminate].
    destruct (Z.eqb_spec t (now st)) as [Ht | _]; [| discriminate].
    injection Hfire as <-.
    destruct Hinv as [Hfresh Hflag].
    destruct (isPipActive st) eqn:Ea.
    + destruct Hflag as (w0 & t0 & Hr & Hlt & Hd & Hnow & Hc).
      unfold closureCheck. simpl. rewrite Hr.
      destruct (isClosed _ w0) eqn:Ec.
      * apply pipInvariant_forget_weak; simpl; [exact Hfresh | congruence].
      * split; simpl; [exact Hfresh |]. rewrite Ea.
        exists w0, (t + checkIntervalMs).
        repeat split; try assumption; try (unfold checkIntervalMs; lia).
        intros tc Htc. unfold isClosed in Ec. simpl in Ec.
        rewrite Htc in Ec. discriminate.
    + destruct Hflag as [_ Hd]. congruence.
  - (* Elapse *)
    destruct ((0 <? ms) && _) eqn:G; [| discriminate].
    injection Hfire as <-. apply andb_prop in G as [Hms Hdue].
    apply Z.ltb_lt in Hms.
    destruct Hinv as [Hfresh Hflag]. split; simpl; [exact Hfresh |].
    destruct (isPipActive st); [| exact Hflag].
    destruct Hflag as (w0 & t & Hr & Hlt & Hd & Hnow & Hc).
    rewrite Hd in Hdue. apply Z.leb_le in Hdue.
    exists w0, t. repeat split; try assumption; lia.
Qed.

Lemma pipInvariant_exec tr : forall st st',
  pipInvariant st -> exec tr st = Some st' -> pipInvariant st'.
Proof.
  induction tr as [| e tr IH]; intros st st' Hinv Hex; simpl in Hex.
  - now injection Hex as <-.
  - destruct (fire e st) as [st1 |] eqn:E; [| discriminate].
    eapply IH; [| exact Hex]. eapply pipInvariant_fire; eassumption.
Qed.

(** Once a window reports [closed] it keeps doing so, with the same closing
    time, and receives no message. *)
Lemma closed_window_fire e st st' w tc :
  fire e st = Some st' ->
  closedAt st w = Some tc ->
  closedAt st' w = Some tc /\ postedTo w st' = postedTo w st.
Proof.
  intros Hfire Hc.
  assert (Hforget : forall s, closedAt s w = Some tc ->
            closedAt (forget s) w = Some tc /\ postedTo w (forget s) = postedTo w s).
  { intros s Hs. destruct (forget_fields s) as (_ & _ & _ & _ & Hca & _ & Hp).
    unfold postedTo. rewrite Hca, Hp. now split. }
  assert (Hclose : forall x s, closedAt s w = Some tc ->
            closedAt (closeWindow x s) w = Some tc
            /\ postedTo w (closeWindow x s) = postedTo w s).
  { intros x s Hs. split; [| reflexivity]. simpl.
    destruct (Nat.eqb_spec w x) as [-> | _]; [now rewrite Hs | exact Hs]. }
  destruct e as [r | x | x | u thr | | ms]; simpl in Hfire.
  - injection Hfire as <-. unfold togglePip.
    assert (Hopen : closedAt (setIsPipActive true (newWindow st)) w = Some tc
                    /\ postedTo w (setIsPipActive true (newWindow st))
                       = postedTo w st).
    { unfold setIsPipActive, newWindow. simpl.
      destruct (isPipActive st); simpl; now split. }
    destruct (isPipActive st); destruct (pipWindowRef st) as [w0 |];
      try (destruct r; now auto).
    destruct (Hclose w0 st Hc) as [H1 H2].
    destruct (Hforget _ H1) as [H3 H4]. split; congruence.
  - destruct (_ && _); [| discriminate]. injection Hfire as <-. now apply Hclose.
  - destruct (_ <? _)%nat; [| discriminate]. injection Hfire as <-.
    now apply Hforget.
  - injection Hfire as <-. unfold pipUpdateEffect.
    destruct (pipWindowRef st) as [w0 |]; [| now split].
    destruct (negb (isClosed st w0)) eqn:G.
    + destruct thr; [now apply Hforget |].
      split; [exact Hc |]. unfold postedTo. simpl.
      destruct (Nat.eqb_spec w0 w) as [-> | _]; [| reflexivity].
      unfold isClosed in G. rewrite Hc in G. discriminate.
    + destruct (isPipActive st); [now apply Hforget | now split].
  - unfold intervalFires in Hfire.
    destruct (checkDue st) as [t |]; [| discriminate].
    destruct (t =? now st); [| discriminate]. injection Hfire as <-.
    unfold closureCheck. simpl.
    destruct (pipWindowRef st) as [w0 |]; [| now split].
    destruct (isClosed _ w0); [| now split].
    apply (Hforget (setCheckDue (Some (t + checkIntervalMs)) st)). exact Hc.
  - destruct (_ && _); [| discriminate]. injection Hfire as <-. now split.
Qed.

Lemma closed_window_exec tr : forall st st' w tc,
  exec tr st = Some st' ->
  closedAt st w = Some tc ->
  closedAt st' w = Some tc /\ postedTo w st' = postedTo w st.
Proof.
  induction tr as [| e tr IH]; intros st st' w tc Hex Hc; simpl in Hex.
  - injection Hex as <-. now split.
  - destruct (fire e st) as [st1 |] eqn:E; [| discriminate].
    destruct (closed_window_fire _ _ _ _ _ E Hc) as [Hc1 Hp1].
    destruct (IH _ _ _ _ Hex Hc1) as [Hc2 Hp2]. split; congruence.
Qed.

(** Unless a window is granted, the reference is kept or dropped. *)
Lemma reference_kept_or_dropped_fire e st st' :
  fire e st = Some st' ->
  opensWindow e = false ->
  pipWindowRef st' = None \/ pipWindowRef st' = pipWindowRef st.
Proof.
  intros Hfire Hno.
  assert (Hforget : forall s, pipWindowRef (forget s) = None)
    by (intros s; apply forget_fields).
  destruct e as [r | x | x | u thr | | ms]; simpl in Hfire.
  - injection Hfire as <-. unfold togglePip.
    destruct (isPipActive st); destruct (pipWindowRef st) as [w0 |] eqn:Er;
      destruct r; try discriminate; rewrite ?Hforget, ?Er; auto.
  - destruct (_ && _); [| discriminate]. injection Hfire as <-. now right.
  - destruct (_ <? _)%nat; [| discriminate]. injection Hfire as <-. now left.
  - injection Hfire as <-. unfold pipUpdateEffect.
    destruct (pipWindowRef st) as [w0 |] eqn:Er; [| now left].
    destruct (negb (isClosed st w0)).
    + destruct thr; [now left | now right].
    + destruct (isPipActive st); [now left | now right].
  - unfold intervalFires in Hfire.
    destruct (checkDue st) as [t |]; [| discriminate].
    destruct (t =? now st); [| discriminate]. injection Hfire as <-.
    unfold closureCheck. simpl.
    destruct (pipWindowRef st) as [w0 |] eqn:Er; [| now left].
    destruct (isClosed _ w0); [now left | now right].
  - destruct (_ && _); [| discriminate]. injection Hfire as <-. now right.
Qed.

Lemma reference_kept_or_dropped tr : forall st st',
  exec tr st = Some st' ->
  opensNoWindow tr = true ->
  pipWindowRef st' = None \/ pipWindowRef st' = pipWindowRef st.
Proof.
  induction tr as [| e tr IH]; intros st st' Hex Hno; simpl in Hex.
  - injection Hex as <-. now right.
  - destruct (fire e st) as [st1 |] eqn:E; [| discriminate].
    simpl in Hno. apply andb_prop in Hno as [He Htr].
    apply negb_true_iff in He.
    destruct (IH _ _ Hex Htr) as [H | H]; [now left |].
    destruct (reference_kept_or_dropped_fire _ _ _ E He) as [H1 | H1];
      rewrite H; [now left | now right].
Qed.

(** The closure check drops a referenced window that reports closed. *)
Lemma closure_check_drops_closed_window st st' w tc :
  intervalFires st = Some st' ->
  pipWindowRef st = Some w ->
  closedAt st w = Some tc ->
  isPipActive st' = false /\ pipWindowRef st' = None.
Proof.
  unfold intervalFires. intros Hfire Href Hclosed.
  destruct (checkDue st) as [t |]; [| discriminate].
  destruct (t =? now st); [| discriminate]. injection Hfire as <-.
  unfold closureCheck, isClosed. simpl. rewrite Href, Hclosed.
  split; apply forget_fields.
Qed.

Lemma exec_app tr1 tr2 : forall st,
  exec (tr1 ++ tr2) st
  = match exec tr1 st with
    | Some st1 => exec tr2 st1
    | None => None
    end.
Proof.
  induction tr1 as [| e tr1 IH]; intros st; simpl; [reflexivity |].
  destruct (fire e st); [apply IH | reflexivity].
Qed.

Lemma exec_one e st : exec [e] st = fire e st.
Proof.
  unfold exec. destruct (fire e st); reflexivity.
Qed.

Lemma timeOnly_opensNoWindow tr :
  timeOnly tr = true -> opensNoWindow tr = true.
Proof.
  unfold timeOnly, opensNoWindow. rewrite !forallb_forall.
  intros H e He. specialize (H e He). destruct e; try discriminate;
    reflexivity.
Qed.

(** Time can pass. *)
Lemma elapse_fires ms st :
  0 < ms ->
  match checkDue st with
  | Some t => now st + ms <= t
  | None => True
  end ->
  fire (Elapse ms) st = Some (advance ms st).
Proof.
  intros Hms Hdue. simpl.
  destruct (Z.ltb_spec 0 ms); [| lia]. simpl.
  destruct (checkDue st) as [t |]; [| reflexivity].
  destruct (Z.leb_spec (now st + ms) t); [reflexivity | lia].
Qed.

(** A check that is due fires; afterwards the clock is where it was and
    the next check, if the interval is still installed, is one period
    away. *)
Lemma due_check_fires st :
  pipInvariant st ->
  checkDue st = Some (now st) ->
  exists st',
    fire CheckFires st = Some st' /\
    pipInvariant st' /\
    now st' = now st /\
    (checkDue st' = None \/ checkDue st' = Some (now st' + checkIntervalMs)).
Proof.
  intros Hinv Hdue.
  assert (Hfire : fire CheckFires st
                  = Some (closureCheck
                            (setCheckDue (Some (now st + checkIntervalMs)) st))).
  { simpl. unfold intervalFires. rewrite Hdue, Z.eqb_refl. reflexivity. }
  eexists. split; [exact Hfire |].
  split; [eapply pipInvariant_fire; eassumption |].
  unfold closureCheck. simpl.
  destruct (pipWindowRef st) as [w |]; [| split; [reflexivity | now right]].
  destruct (isClosed _ w); [| split; [reflexivity | now right]].
  destruct (forget_fields (setCheckDue (Some (now st + checkIntervalMs)) st))
    as (_ & _ & Hd & Hn & _).
  rewrite Hd, Hn. simpl.
  split; [reflexivity |]. destruct (isPipActive st); [now left | now right].
Qed.

Lemma time_passes_after_a_check k : forall st d,
  pipInvariant st ->
  checkDue st = None \/ checkDue st = Some (now st + checkIntervalMs) ->
  0 <= d <= Z.of_nat k * checkIntervalMs ->
  exists tr st',
    timeOnly tr = true /\ exec tr st = Some st' /\ now st' = now st + d.
Proof.
  unfold checkIntervalMs.
  induction k as [| k IH]; intros st d Hinv Hdue Hd.
  - exists [], st. repeat split. lia.
  - destruct (Z.eq_dec d 0) as [-> | Hd0].
    { exists [], st. repeat split. lia. }
    destruct Hdue as [Hdue | Hdue].
    + exists [Elapse d], (advance d st). split; [reflexivity |].
      split; [| reflexivity].
      rewrite exec_one, elapse_fires; [reflexivity | lia | now rewrite Hdue].
    + destruct (Z.le_gt_cases d 1000) as [Hle | Hgt].
      * exists [Elapse d], (advance d st). split; [reflexivity |].
        split; [| reflexivity].
        rewrite exec_one, elapse_fires; [reflexivity | lia | rewrite Hdue; lia].
      * assert (He : fire (Elapse 1000) st = Some (advance 1000 st))
          by (apply elapse_fires; [lia | rewrite Hdue; lia]).
        assert (Hinv1 : pipInvariant (advance 1000 st))
          by (eapply pipInvariant_fire; eassumption).
        destruct (due_check_fires (advance 1000 st) Hinv1)
          as (st2 & Hf2 & Hinv2 & Hn2 & Hdue2);
          [simpl; rewrite Hdue; reflexivity |].
        destruct (IH st2 (d - 1000) Hinv2 Hdue2) as (tr & st' & Ht & Hex & Hn);
          [lia |].
        exists (Elapse 1000 :: CheckFires :: tr), st'.
        split; [simpl; exact Ht |].
        split; [| rewrite Hn, Hn2; simpl; lia].
        change (exec (Elapse 1000 :: CheckFires :: tr) st)
          with (match fire (Elapse 1000) st with
                | Some st1 =>
                    match fire CheckFires st1 with
                    | Some st2 => exec tr st2
                    | None => None
                    end
                | None => None
                end).
        rewrite He, Hf2. exact Hex.
Qed.

Lemma time_passes st d :
  pipInvariant st ->
  0 <= d ->
  exists tr st',
    timeOnly tr = true /\ exec tr st = Some st' /\ now st' = now st + d.
Proof.
  intros Hinv Hd.
  assert (Hk : forall x, 0 <= x -> x <= Z.of_nat (Z.to_nat x) * checkIntervalMs)
    by (intros x Hx; unfold checkIntervalMs; lia).
  destruct (checkDue st) as [t |] eqn:Hdue.
  - assert (Ht : now st <= t <= now st + checkIntervalMs).
    { destruct Hinv as [_ Hflag]. destruct (isPipActive st).
      - destruct Hflag as (w & t' & _ & _ & Ht' & Hb & _). congruence.
      - destruct Hflag as [_ Hnone]. congruence. }
    destruct (Z.le_gt_cases (now st + d) t) as [Hle | Hgt].
    + destruct (Z.eq_dec d 0) as [-> | Hd0].
      { exists [], st. repeat split. lia. }
      exists [Elapse d], (advance d st). split; [reflexivity |].
      split; [| reflexivity].
      rewrite exec_one, elapse_fires; [reflexivity | lia | now rewrite Hdue].
    + assert (Hreach : exists tr1 st1,
                timeOnly tr1 = true /\ exec tr1 st = Some st1 /\
                pipInvariant st1 /\ now st1 = t /\ checkDue st1 = Some t).
      { destruct (Z.eq_dec (now st) t) as [He | Hne].
        - exists [], st. split; [reflexivity |]. split; [reflexivity |].
          split; [exact Hinv |]. split; [exact He | exact Hdue].
        - exists [Elapse (t - now st)], (advance (t - now st) st).
          assert (He : fire (Elapse (t - now st)) st
                       = Some (advance (t - now st) st))
            by (apply elapse_fires; [lia | rewrite Hdue; lia]).
          split; [reflexivity |]. split; [now rewrite exec_one, He |].
          split; [eapply pipInvariant_fire; eassumption |].
          split; [simpl; lia | exact Hdue]. }
      destruct Hreach as (tr1 & st1 & Ht1 & Hex1 & Hinv1 & Hn1 & Hdue1).
      destruct (due_check_fires st1 Hinv1) as (st2 & Hf2 & Hinv2 & Hn2 & Hdue2);
        [congruence |].
      destruct (time_passes_after_a_check (Z.to_nat (now st + d - t)) st2
                  (now st + d - t) Hinv2 Hdue2)
        as (tr3 & st3 & Ht3 & Hex3 & Hn3); [split; [lia | apply Hk; lia] |].
      exists (tr1 ++ CheckFires :: tr3)%list, st3.
      split; [unfold timeOnly in *; rewrite forallb_app; simpl;
              now rewrite Ht1, Ht3 |].
      split; [| rewrite Hn3, Hn2, Hn1; lia].
      rewrite exec_app, Hex1.
      change (exec (CheckFires :: tr3) st1)
        with (match fire CheckFires st1 with
              | Some st2 => exec tr3 st2
              | None => None
              end).
      now rewrite Hf2.
  - apply (time_passes_after_a_check (Z.to_nat d)); auto.
Qed.

(** What holds of a window that reports closed, in every later state. *)
Lemma closed_window_is_dropped history continuation st st' w tc :
  exec history init = Some st ->
  closedAt st w = Some tc ->
  exec continuation st = Some st' ->
  closedAt st' w = Some tc /\
  postedTo w st' = postedTo w st /\
  (isPipActive st' = true ->
   pipWindowRef st' = Some w ->
   exists t,
     checkDue st' = Some t /\
     now st' <= t <= tc + checkIntervalMs) /\
  (tc + checkIntervalMs < now st' ->
   pipWindowRef st' <> Some w /\
   (isPipActive st' = true ->
    exists w', w' <> w /\ pipWindowRef st' = Some w') /\
   (pipWindowRef st = Some w ->
    opensNoWindow continuation = true ->
    isPipActive st' = false)).
Proof.
  intros Hhist Hclosed Hcont.
  destruct (closed_window_exec _ _ _ _ _ Hcont Hclosed) as [Hc' Hp'].
  split; [exact Hc' |]. split; [exact Hp' |].
  assert (Hinv : pipInvariant st').
  { eapply pipInvariant_exec; [| exact Hcont].
    eapply pipInvariant_exec; [apply pipInvariant_init | exact Hhist]. }
  destruct Hinv as [_ Hflag].
  destruct (isPipActive st').
  - destruct Hflag as (w0 & t & Hr & _ & Hd & Hnow & Hc).
    split.
    { intros _ Href. rewrite Hr in Href. injection Href as ->.
      exists t. specialize (Hc tc Hc'). split; [exact Hd | lia]. }
    intros Hlate.
    assert (Hne : w0 <> w).
    { intros ->. specialize (Hc tc Hc'). lia. }
    split; [rewrite Hr; congruence |].
    split; [intros _; now exists w0 |].
    intros Href Hno.
    destruct (reference_kept_or_dropped _ _ _ Hcont Hno) as [H | H];
      congruence.
  - destruct Hflag as [Hr _].
    split; [discriminate |]. intros _.
    split; [rewrite Hr; discriminate |]. split; [discriminate | reflexivity].
Qed.

End PipInvariant.

(** C10. Take any history of the primary from mount to a state in which
    window [w] reports closed since time [tc], and any continuation of it.
    The window still reports closed since [tc]: the condition is terminal.
    No message is posted to [w] in the continuation.  As long as the flag
    is still up for [w], a closure check is pending and due no later than
    one period (1000 ms) after [tc].  So once more than one period has
    passed since [tc], the primary no longer refers to [w] and its active
    flag is up only for another window opened since; if [w] was the window
    referred to and no window was opened in the continuation, the flag is
    false.  And that moment comes: from every such state any amount of time
    can pass, with the closure check firing whenever it is due, and when
    nothing else happens meanwhile the state reached after the period has
    dropped [w].  No close notification is needed for any of this. *)
Theorem closed_mirror_is_dropped_within_one_check :
  forall history continuation st st' w tc,
    Pip.exec history Pip.init = Some st ->
    Pip.closedAt st w = Some tc ->
    Pip.exec continuation st = Some st' ->
    Pip.closedAt st' w = Some tc /\
    Pip.postedTo w st' = Pip.postedTo w st /\
    (Pip.isPipActive st' = true ->
     Pip.pipWindowRef st' = Some w ->
     exists t,
       Pip.checkDue st' = Some t /\
       Pip.now st' <= t <= tc + Pip.checkIntervalMs) /\
    (tc + Pip.checkIntervalMs < Pip.now st' ->
     Pip.pipWindowRef st' <> Some w /\
     (Pip.isPipActive st' = true ->
      exists w', w' <> w /\ Pip.pipWindowRef st' = Some w') /\
     (Pip.pipWindowRef st = Some w ->
      Pip.opensNoWindow continuation = true ->
      Pip.isPipActive st' = false)) /\
    (forall d, 0 <= d ->
       exists waiting st'',
         Pip.timeOnly waiting = true /\
         Pip.exec waiting st' = Some st'' /\
         Pip.now st'' = Pip.now st' + d) /\
    (exists waiting st'',
       Pip.timeOnly waiting = true /\
       Pip.exec waiting st' = Some st'' /\
       tc + Pip.checkIntervalMs < Pip.now st'' /\
       Pip.closedAt st'' w = Some tc /\
       Pip.pipWindowRef st'' <> Some w /\
       (Pip.isPipActive st'' = true ->
        exists w', w' <> w /\ Pip.pipWindowRef st'' = Some w') /\
       (Pip.pipWindowRef st = Some w ->
        Pip.opensNoWindow continuation = true ->
        Pip.isPipActive st'' = false)).
Proof.
  intros history continuation st st' w tc Hhist Hclosed Hcont.
  destruct (closed_window_is_dropped history continuation st st' w tc
              Hhist Hclosed Hcont) as (H1 & H2 & H3 & H4).
  split; [exact H1 |]. split; [exact H2 |]. split; [exact H3 |].
  split; [exact H4 |].
  assert (Hinv : pipInvariant st').
  { eapply pipInvariant_exec; [| exact Hcont].
    eapply pipInvariant_exec; [apply pipInvariant_init | exact Hhist]. }
  split; [intros d Hd; now apply time_passes |].
  destruct (time_passes st'
              (Z.max 0 (tc + Pip.checkIntervalMs + 1 - Pip.now st')) Hinv)
    as (waiting & st'' & Ht & Hex & Hnow); [lia |].
  exists waiting, st''. split; [exact Ht |]. split; [exact Hex |].
  assert (Hlate : tc + Pip.checkIntervalMs < Pip.now st'') by lia.
  split; [exact Hlate |].
  assert (Hall : Pip.exec (continuation ++ waiting)%list st = Some st'')
    by (now rewrite exec_app, Hcont).
  destruct (closed_window_is_dropped history (continuation ++ waiting)%list
              st st'' w tc Hhist Hclosed Hall) as (G1 & _ & _ & G4).
  destruct (G4 Hlate) as (Gref & Gflag & Gdown).
  split; [exact G1 |]. split; [exact Gref |]. split; [exact Gflag |].
  intros Href Hno. apply Gdown; [exact Href |].
  unfold Pip.opensNoWindow in *. rewrite forallb_app, Hno. simpl.
  now apply timeOnly_opensNoWindow.
Qed.

(** A window closed from outside 400 ms after it was opened, with no close
    notification: it gets no message afterwards and the flag is down once
    the check of time 1000 has run. *)
Lemma closed_mirror_example :
  let st :=
    Pip.closeWindow 0%nat
      (Pip.advance 400
         (Pip.pipUpdateEffect (Pip.updateOf (initialState ItemMissing)) false
            (Pip.togglePip Pip.Granted Pip.init))) in
  let st' :=
    Pip.advance 500
      (Pip.pipUpdateEffect
         (Pip.updateOf (start (initialState ItemMissing))) false
         (Pip.closureCheck
            (Pip.setCheckDue (Some 2000) (Pip.advance 600 st)))) in
  Pip.closedAt st' 0%nat = Some 400 /\
  Pip.postedTo 0%nat st = [Pip.updateOf (initialState ItemMissing)] /\
  Pip.postedTo 0%nat st' = Pip.postedTo 0%nat st /\
  Pip.pipWindowRef st' <> Some 0%nat /\
  Pip.isPipActive st' = false.
Proof.
  intros st st'.
  destruct (closed_mirror_is_dropped_within_one_check
              pipOpenedThenClosed pipAfterClosing st st' 0%nat 400
              eq_refl eq_refl eq_refl)
    as (Hclosed & Hposted & _ & Hlate & _).
  split; [exact Hclosed |]. split; [reflexivity |]. split; [exact Hposted |].
  destruct (Hlate eq_refl) as (Href & _ & Hflag).
  split; [exact Href |]. apply Hflag; reflexivity.
Defined.

(** * Further properties of the page *)

(** ** The session state machine along runs *)

Lemma getTimerDuration_nonneg raw mode :
  (forall p, getCurrentPreset raw = Some p ->
             0 <= focusDuration p /\ 0 <= shortBreakDuration p
             /\ 0 <= longBreakDuration p) ->
  0 <= getTimerDuration raw mode.
Proof.
  intros H. unfold getTimerDuration.
  destruct (getCurrentPreset raw) as [p |].
  - destruct (H p eq_refl) as (Hf & Hs & Hl). destruct mode; lia.
  - destruct mode; lia.
Qed.

Lemma handleTimerCompleteOf_secondsLeft raw render s :
  secondsLeft (handleTimerCompleteOf raw render s) = secondsLeft s \/
  exists mode,
    secondsLeft (handleTimerCompleteOf raw render s) = getTimerDuration raw mode.
Proof.
  unfold handleTimerCompleteOf.
  destruct (getCurrentPreset raw) as [p |]; [| now left].
  right. destruct (timerMode render); simpl; eauto.
Qed.

(** The seconds after a firing: one less, 0, or a duration. *)
Lemma firing_secondsLeft raw render s f :
  f = tick \/ f = tickWhileRendering ->
  secondsLeft (f raw render s) = 0 \/
  (exists mode, secondsLeft (f raw render s) = getTimerDuration raw mode) \/
  (1 < secondsLeft s /\ secondsLeft (f raw render s) = secondsLeft s - 1).
Proof.
  intros Hf.
  destruct (firing_cells raw render s f Hf)
    as [[Hgt Hc] | [Hle (seconds & Hc & Hsec)]]; rewrite Hc; simpl.
  - right. right. split; [exact Hgt | reflexivity].
  - destruct Hsec as [-> | [-> | (mode & _ & ->)]].
    + now left.
    + destruct (handleTimerCompleteOf_secondsLeft raw render (setRunning false s))
        as [H | H]; [| right; left; exact H].
      rewrite H. simpl.
      (* the handler wrote nothing: the cell keeps its 0 or is set to 0 *)
      assert (Hz : secondsLeft s = 0 \/ secondsLeft s <> 0) by lia.
      destruct Hz as [Hz | Hz]; [now left |].
      destruct Hf as [-> | ->].
      * unfold tick in Hc.
        destruct (Z.leb_spec (secondsLeft s) 1); [| lia]. cbv zeta in Hc.
        destruct (Z.eqb_spec (secondsLeft s) 0); [contradiction |].
        apply (f_equal secondsLeft) in Hc. simpl in Hc.
        rewrite H in Hc. simpl in Hc. now left.
      * rewrite tickWhileRendering_last_second in Hc by exact Hle.
        apply (f_equal secondsLeft) in Hc. simpl in Hc.
        destruct (handleTimerCompleteOf_secondsLeft raw render
                    (setRunning false (setSecondsLeft 0 s))) as [G | G].
        -- rewrite G in Hc. simpl in Hc. rewrite H in Hc. simpl in Hc.
           now left.
        -- destruct G as (mode & G). rewrite G in Hc. rewrite H in Hc.
           simpl in Hc. right. left. exists mode. congruence.
    + right. left. now exists mode.
Qed.

Lemma cellsAfter_secondsLeft raw a p :
  secondsLeft (cellsAfter raw a p) = secondsLeft (cells p) \/
  (exists mode, secondsLeft (cellsAfter raw a p) = getTimerDuration raw mode) \/
  secondsLeft (cellsAfter raw a p) = 0 \/
  (1 < secondsLeft (cells p) /\
   secondsLeft (cellsAfter raw a p) = secondsLeft (cells p) - 1).
Proof.
  destruct p as [s held].
  destruct a as [ | | | | m | | | data]; simpl.
  - now left.
  - now left.
  - right. left. eauto.
  - unfold skip, handleTimerComplete.
    destruct (handleTimerCompleteOf_secondsLeft raw (setRunning false s)
                (setRunning false s))
      as [H | H]; [left; exact H | right; left; exact H].
  - right. left. exists m. destruct m; reflexivity.
  - destruct held as [render |]; [| now left].
    destruct (firing_secondsLeft raw render s tick (or_introl eq_refl))
      as [H | [H | H]]; auto.
  - destruct held as [render |]; [| now left].
    destruct (firing_secondsLeft raw render s tickWhileRendering
                (or_intror eq_refl)) as [H | [H | H]]; auto.
  - destruct data as [ | t act]; simpl; [now left |].
    destruct (fieldIs t "pip-control"); [| now left].
    destruct (fieldIs act "start"); [now left |].
    destruct (fieldIs act "stop"); [now left |].
    destruct (fieldIs act "reset"); [| now left].
    right. left. simpl. eauto.
Qed.

Lemma runPage_secondsLeft_nonneg raw tr : forall p,
  (forall q, getCurrentPreset raw = Some q ->
             0 <= focusDuration q /\ 0 <= shortBreakDuration q
             /\ 0 <= longBreakDuration q) ->
  0 <= secondsLeft (cells p) ->
  0 <= secondsLeft (cells (runPage raw tr p)).
Proof.
  induction tr as [| a tr IH]; intros p Hp Hs; simpl.
  - exact Hs.
  - apply IH; [exact Hp |]. simpl.
    destruct (cellsAfter_secondsLeft raw a p) as [H | [[m H] | [H | [Hgt H]]]];
      rewrite H; try lia.
    now apply getTimerDuration_nonneg.
Qed.

(** X1. While the durations of the current preset are not negative (or no
    preset is current), no run of the timer takes [secondsLeft] below
    zero. *)
Theorem secondsLeft_never_negative :
  forall raw tr s,
    (forall p, getCurrentPreset raw = Some p ->
               0 <= focusDuration p /\ 0 <= shortBreakDuration p
               /\ 0 <= longBreakDuration p) ->
    0 <= secondsLeft s ->
    0 <= secondsLeft (run raw tr s).
Proof.
  intros raw tr s Hp Hs. unfold run.
  now apply runPage_secondsLeft_nonneg.
Qed.

(** Every mix of actions on the classic preset, here a reset in the middle
    of a skipped cycle. *)
Lemma secondsLeft_never_negative_classic :
  0 <= secondsLeft
         (run (builtin "pomodoro-classic")
            [Start; Tick; Skip; Reset; SwitchMode long_break; Start; Tick]
            (initialState (builtin "pomodoro-classic"))).
Proof.
  apply secondsLeft_never_negative.
  - intros p Hp. vm_compute in Hp. injection Hp as <-. simpl. lia.
  - vm_compute. discriminate.
Defined.

(** The mode and the counter after an event other than [switchMode]: as
    they were, or as some render's [handleTimerComplete] writes them. *)
Lemma cellsAfter_mode_counter raw a p :
  isSwitchMode a = false ->
  (timerMode (cellsAfter raw a p) = timerMode (cells p) /\
   completedSessions (cellsAfter raw a p) = completedSessions (cells p)) \/
  (exists render x,
     timerMode x = timerMode (cells p) /\
     completedSessions x = completedSessions (cells p) /\
     timerMode (cellsAfter raw a p)
     = timerMode (handleTimerCompleteOf raw render x) /\
     completedSessions (cellsAfter raw a p)
     = completedSessions (handleTimerCompleteOf raw render x)).
Proof.
  intros Hsw. destruct p as [s held].
  assert (Hfire : forall render f,
            f = tick \/ f = tickWhileRendering ->
            (timerMode (f raw render s) = timerMode s /\
             completedSessions (f raw render s) = completedSessions s) \/
            (exists render' x,
               timerMode x = timerMode s /\
               completedSessions x = completedSessions s /\
               timerMode (f raw render s)
               = timerMode (handleTimerCompleteOf raw render' x) /\
               completedSessions (f raw render s)
               = completedSessions (handleTimerCompleteOf raw render' x))).
  { intros render f Hf.
    destruct (firing_cells raw render s f Hf)
      as [[_ Hc] | [_ (seconds & Hc & _)]]; rewrite Hc.
    - left. split; reflexivity.
    - right. exists render, (setRunning false s). repeat split. }
  destruct a as [ | | | | m | | | data]; simpl in *; try discriminate;
    try (left; split; reflexivity).
  - right. exists (setRunning false s), (setRunning false s). repeat split.
  - destruct held as [render |]; [| left; split; reflexivity].
    apply Hfire. now left.
  - destruct held as [render |]; [| left; split; reflexivity].
    apply Hfire. now right.
  - left. destruct data as [ | t act]; simpl; [split; reflexivity |].
    destruct (fieldIs t "pip-control"); [| split; reflexivity].
    destruct (fieldIs act "start"); [split; reflexivity |].
    destruct (fieldIs act "stop"); [split; reflexivity |].
    destruct (fieldIs act "reset"); split; reflexivity.
Qed.

(** The page keeps an interval only while it runs, and the render that
    installed it has counted no more sessions than the cells hold. *)
Lemma stepPage_completedSessions raw a p :
  0 <= completedSessions (cells p) ->
  (forall r, intervalOf p = Some r ->
             running (cells p) = true /\
             0 <= completedSessions r <= completedSessions (cells p)) ->
  0 <= completedSessions (cells (stepPage raw a p))
  <= completedSessions (cells p) + 1 /\
  (forall r, intervalOf (stepPage raw a p) = Some r ->
             running (cells (stepPage raw a p)) = true /\
             0 <= completedSessions r
             <= completedSessions (cells (stepPage raw a p))).
Proof.
  intros Hc Hheld. destruct p as [s held]. simpl in Hc, Hheld.
  assert (Hcount :
    0 <= completedSessions (cellsAfter raw a {| cells := s; intervalOf := held |})
    <= completedSessions s + 1 /\
    (forall r, held = Some r ->
       running (cellsAfter raw a {| cells := s; intervalOf := held |}) = true ->
       completedSessions r
       <= completedSessions (cellsAfter raw a {| cells := s; intervalOf := held |}))).
  { assert (Hh : forall render x,
              completedSessions x = completedSessions s ->
              (render = x \/ held = Some render) ->
              0 <= completedSessions (handleTimerCompleteOf raw render x)
              <= completedSessions s + 1 /\
              (forall r, held = Some r ->
                 completedSessions r
                 <= completedSessions (handleTimerCompleteOf raw render x))).
    { intros render x Hx Hrender.
      assert (Hr : 0 <= completedSessions render <= completedSessions s).
      { destruct Hrender as [-> | Hr]; [lia |]. now apply Hheld. }
      unfold handleTimerCompleteOf.
      destruct (getCurrentPreset raw) as [q |].
      - destruct (timerMode render); simpl; (split; [lia |]);
          intros r Hr'; destruct (Hheld r Hr') as [_ Hb];
          destruct Hrender as [-> | Hsame]; try lia;
          rewrite Hsame in Hr'; injection Hr' as ->; lia.
      - split; [lia |]. intros r Hr'. destruct (Hheld r Hr'). lia. }
    assert (Hfire : forall render f,
              held = Some render ->
              f = tick \/ f = tickWhileRendering ->
              0 <= completedSessions (f raw render s)
              <= completedSessions s + 1 /\
              (forall r, held = Some r ->
                 completedSessions r <= completedSessions (f raw render s))).
    { intros render f Hrender Hf.
      destruct (firing_cells raw render s f Hf)
        as [[_ Hcd] | [_ (seconds & Hcd & _)]]; rewrite Hcd; simpl.
      - split; [lia |]. intros r Hr'. destruct (Hheld r Hr'). lia.
      - destruct (Hh render (setRunning false s) eq_refl (or_intror Hrender))
          as [H1 H2]. split; [exact H1 | exact H2]. }
    destruct a as [ | | | | m | | | data]; simpl.
    - split; [lia |]. intros r Hr _. destruct (Hheld r Hr). lia.
    - split; [lia |]. intros r Hr _. destruct (Hheld r Hr). lia.
    - split; [lia |]. intros r Hr _. destruct (Hheld r Hr). lia.
    - unfold skip, handleTimerComplete.
      destruct (Hh (setRunning false s) (setRunning false s) eq_refl
                  (or_introl eq_refl)) as [H1 H2].
      split; [exact H1 |]. intros r Hr _. now apply H2.
    - split; [destruct m; simpl; lia |]. intros r Hr.
      destruct m; simpl; discriminate.
    - destruct held as [render |].
      + destruct (Hfire render tick eq_refl (or_introl eq_refl)) as [H1 H2].
        split; [exact H1 |]. intros r Hr _. now apply H2.
      + split; [lia |]. discriminate.
    - destruct held as [render |].
      + destruct (Hfire render tickWhileRendering eq_refl (or_intror eq_refl))
          as [H1 H2].
        split; [exact H1 |]. intros r Hr _. now apply H2.
      + split; [lia |]. discriminate.
    - assert (Hsame : completedSessions
                        match handleMessage raw data s with
                        | Some s' => s'
                        | None => s
                        end = completedSessions s).
      { destruct data as [ | t act]; simpl; [reflexivity |].
        destruct (fieldIs t "pip-control"); [| reflexivity].
        destruct (fieldIs act "start"); [reflexivity |].
        destruct (fieldIs act "stop"); [reflexivity |].
        destruct (fieldIs act "reset"); reflexivity. }
      rewrite Hsame. split; [lia |].
      intros r Hr _. destruct (Hheld r Hr). lia. }
  destruct Hcount as [Hbounds Hkept].
  split; [exact Hbounds |].
  simpl. unfold effectOnRunning.
  set (s' := cellsAfter raw a {| cells := s; intervalOf := held |}) in *.
  destruct (Bool.eqb (running s) (running s')) eqn:E.
  - intros r Hr. destruct (Hheld r Hr) as [Hrun Hb].
    apply Bool.eqb_prop in E. rewrite Hrun in E.
    split; [now symmetry |]. split; [lia |]. apply Hkept; [exact Hr | now symmetry].
  - destruct (running s') eqn:Er; [| discriminate].
    intros r Hr. injection Hr as <-. split; [reflexivity | lia].
Qed.

Lemma runPage_completedSessions raw tr : forall p,
  0 <= completedSessions (cells p) ->
  (forall r, intervalOf p = Some r ->
             running (cells p) = true /\
             0 <= completedSessions r <= completedSessions (cells p)) ->
  0 <= completedSessions (cells (runPage raw tr p))
  <= completedSessions (cells p) + Z.of_nat (List.length tr).
Proof.
  induction tr as [| a tr IH]; intros p Hc Hheld.
  - simpl. lia.
  - destruct (stepPage_completedSessions raw a p Hc Hheld) as [Hb Hheld'].
    specialize (IH (stepPage raw a p) (proj1 Hb) Hheld').
    simpl runPage. rewrite length_cons, Nat2Z.inj_succ. lia.
Qed.

(** X2. The counter of completed focus sessions never becomes negative and
    grows by at most one per action: after any run it lies between zero and
    its initial value plus the length of the run. *)
Theorem completedSessions_bounded_by_run :
  forall raw tr s,
    0 <= completedSessions s ->
    0 <= completedSessions (run raw tr s)
    <= completedSessions s + Z.of_nat (List.length tr).
Proof.
  intros raw tr s Hc. unfold run.
  apply (runPage_completedSessions raw tr (mounted s)); [exact Hc |].
  unfold mounted. simpl. intros r Hr.
  destruct (running s); [| discriminate]. injection Hr as <-.
  split; [reflexivity | lia].
Qed.

Lemma completedSessions_bounded_by_run_classic :
  0 <= completedSessions
         (run (builtin "pomodoro-classic") [Start; Skip; Skip; Skip]
            (initialState (builtin "pomodoro-classic")))
  <= 0 + 4.
Proof.
  apply (completedSessions_bounded_by_run (builtin "pomodoro-classic")
           [Start; Skip; Skip; Skip]
           (initialState (builtin "pomodoro-classic"))).
  simpl. lia.
Defined.

(** A property of the mode that every [handleTimerComplete] keeps is kept
    along every run without [switchMode]. *)
Lemma runPage_mode_invariant raw (good : TimerMode -> Prop) tr : forall p,
  (forall render x, good (timerMode x) ->
                    good (timerMode (handleTimerCompleteOf raw render x))) ->
  manualSwitchFree tr = true ->
  good (timerMode (cells p)) ->
  good (timerMode (cells (runPage raw tr p))).
Proof.
  induction tr as [| a tr IH]; intros p Hh Hfree Hg; [exact Hg |].
  simpl in Hfree. apply andb_prop in Hfree as [Ha Htr].
  apply negb_true_iff in Ha. simpl. apply IH; [exact Hh | exact Htr |].
  simpl.
  destruct (cellsAfter_mode_counter raw a p Ha)
    as [[Hm _] | (render & x & Hmx & _ & Hm & _)]; rewrite Hm;
    [exact Hg |].
  apply Hh. now rewrite Hmx.
Qed.

Lemma runPage_without_preset raw tr : forall p,
  getCurrentPreset raw = None ->
  manualSwitchFree tr = true ->
  timerMode (cells (runPage raw tr p)) = timerMode (cells p) /\
  completedSessions (cells (runPage raw tr p)) = completedSessions (cells p).
Proof.
  induction tr as [| a tr IH]; intros p Hp Hfree; simpl.
  - split; reflexivity.
  - simpl in Hfree. apply andb_prop in Hfree as [Ha Htr].
    apply negb_true_iff in Ha.
    destruct (IH (stepPage raw a p) Hp Htr) as [Hm Hc]. rewrite Hm, Hc.
    simpl.
    destruct (cellsAfter_mode_counter raw a p Ha)
      as [H | (render & x & Hmx & Hcx & Hm' & Hc')]; [exact H |].
    rewrite Hm', Hc', handleTimerCompleteOf_no_preset by exact Hp.
    now split.
Qed.

(** X3. When the store yields no preset, nothing but [switchMode] ever
    changes the mode or the counter: whatever is pressed, received or
    counted down, the timer stays in its mode with the sessions it had. *)
Theorem without_preset_mode_is_stuck :
  forall raw tr s,
    getCurrentPreset raw = None ->
    manualSwitchFree tr = true ->
    timerMode (run raw tr s) = timerMode s /\
    completedSessions (run raw tr s) = completedSessions s.
Proof.
  intros raw tr s Hp Hfree. unfold run.
  now apply (runPage_without_preset raw tr (mounted s)).
Qed.

(** Nothing stored: a whole focus period, a skip and a reset later the
    timer is still in focus mode with no session counted. *)
Lemma without_preset_mode_is_stuck_example :
  let tr := ((Start :: repeat Tick 1500) ++ [Skip; Reset; Start; Tick])%list in
  timerMode (run ItemMissing tr (initialState ItemMissing)) = focus /\
  completedSessions (run ItemMissing tr (initialState ItemMissing)) = 0.
Proof.
  intros tr.
  apply (without_preset_mode_is_stuck ItemMissing tr
           (initialState ItemMissing)).
  - reflexivity.
  - vm_compute. reflexivity.
Defined.

Lemma clock_runs_out_while_rendering raw render s m :
  running s = true ->
  secondsLeft s = Z.of_nat m ->
  (1 <= m)%nat ->
  cells (runPage raw (repeat TickWhileRendering m)
           {| cells := s; intervalOf := Some render |})
  = handleTimerCompleteOf raw render (setRunning false (setSecondsLeft 0 s)).
Proof.
  intros Hr Hs Hm. destruct m as [| k]; [lia |].
  change (repeat TickWhileRendering (S k))
    with (TickWhileRendering :: repeat TickWhileRendering k).
  rewrite repeat_cons, runPage_app.
  rewrite runPage_counts_down;
    [| apply forallb_forall; intros a Ha; apply repeat_spec in Ha; now subst
     | exact Hr | rewrite repeat_length; lia].
  rewrite repeat_length. simpl.
  rewrite tickWhileRendering_last_second by (simpl; lia).
  destruct s as [md r c sl]. reflexivity.
Qed.

(** X4. A running clock with [m >= 1] seconds left, timed by the interval
    that some render has installed, is still counting after every number
    [n < m] of firings, with [m - n] seconds left and nothing else changed.
    The [m]-th firing (its updater run at dispatch) stops the clock, calls
    the [handleTimerComplete] of that render, which need not be the render
    on display, and leaves the clock at 0. *)
Theorem clock_runs_out_at_the_last_second :
  forall raw render s m,
    running s = true ->
    secondsLeft s = Z.of_nat m ->
    (1 <= m)%nat ->
    (forall tr, firingsOnly tr = true -> (List.length tr < m)%nat ->
       runPage raw tr {| cells := s; intervalOf := Some render |}
       = {| cells := setSecondsLeft (Z.of_nat (m - List.length tr)) s;
            intervalOf := Some render |}) /\
    cells (runPage raw (repeat Tick m)
             {| cells := s; intervalOf := Some render |})
    = setSecondsLeft 0 (handleTimerCompleteOf raw render (setRunning false s)).
Proof.
  intros raw render s m Hr Hs Hm. split.
  - intros tr Hf Hlen. rewrite runPage_counts_down by (try assumption; lia).
    do 2 f_equal. lia.
  - now apply clock_runs_out.
Qed.

(** The classic short break that started by itself: the interval is the
    one installed when the focus period was started.  299 firings leave one
    second; the 300th ends in the short break again, not in focus. *)
Lemma clock_runs_out_at_the_last_second_example :
  let raw := builtin "pomodoro-classic" in
  let render := start (initialState raw) in
  let s := {| timerMode := short_break; running := true;
              completedSessions := 1; secondsLeft := 300 |} in
  runPage raw (repeat Tick 299) {| cells := s; intervalOf := Some render |}
  = {| cells := setSecondsLeft 1 s; intervalOf := Some render |} /\
  cells (runPage raw (repeat Tick 300)
           {| cells := s; intervalOf := Some render |})
  = {| timerMode := short_break; running := true;
       completedSessions := 1; secondsLeft := 0 |}.
Proof.
  intros raw render s.
  destruct (clock_runs_out_at_the_last_second raw render s 300
              eq_refl eq_refl ltac:(lia)) as (Hbefore & Hlast).
  split.
  - apply (Hbefore (repeat Tick 299)); [reflexivity |].
    rewrite repeat_length. lia.
  - rewrite Hlast. reflexivity.
Defined.

(** X5. A current preset whose [longBreakInterval] is 0 does not break the
    timer: the remainder by zero is [NaN], the test for a long break is
    false every time, and no run without [switchMode] that starts outside
    [long-break] ever reaches it. *)
Theorem zero_interval_never_gives_long_break :
  forall raw p tr s,
    getCurrentPreset raw = Some p ->
    longBreakInterval p = 0 ->
    manualSwitchFree tr = true ->
    timerMode s <> long_break ->
    timerMode (run raw tr s) <> long_break.
Proof.
  intros raw p tr s Hp Hk Hfree Hm. unfold run.
  apply (runPage_mode_invariant raw (fun m => m <> long_break) tr (mounted s));
    [| exact Hfree | exact Hm].
  intros render x _. unfold handleTimerCompleteOf. rewrite Hp, Hk.
  destruct (timerMode render); simpl; discriminate.
Qed.

(** Eight skipped periods under the stored zero-interval preset. *)
Lemma zero_interval_never_gives_long_break_example :
  timerMode
    (run (stored "custom-0" [zeroIntervalPreset]) (repeat Skip 8)
       (initialState (stored "custom-0" [zeroIntervalPreset])))
  <> long_break.
Proof.
  apply (zero_interval_never_gives_long_break
           (stored "custom-0" [zeroIntervalPreset]) zeroIntervalPreset);
    try reflexivity.
  vm_compute. discriminate.
Defined.

(** ** The script of the detached window *)

Lemma onPipUpdate_eq u st :
  Mirror.onPipUpdate u st
  = {| Mirror.currentSeconds := Pip.seconds u;
       Mirror.isRunning := Pip.upd_running u;
       Mirror.intervalId := Mirror.intervalId st && Pip.upd_running u |}.
Proof.
  destruct u as [sec r md], st as [cs ir iid]. unfold Mirror.onPipUpdate.
  simpl. destruct r, iid; reflexivity.
Qed.

(** X6. A [pip-update] message makes the detached window show the pushed
    seconds and running flag, and never starts the window's own countdown:
    [isRunning] is assigned before [startTimer] is called, so [startTimer]
    returns at once; an installed interval survives only a push that says
    running. *)
Theorem pip_update_never_starts_the_mirror_clock :
  forall u st,
    Mirror.onPipUpdate u st
    = {| Mirror.currentSeconds := Pip.seconds u;
         Mirror.isRunning := Pip.upd_running u;
         Mirror.intervalId := Mirror.intervalId st && Pip.upd_running u |}.
Proof.
  exact onPipUpdate_eq.
Qed.

Lemma mirror_fire_interval d e st st' :
  Mirror.fire d e st = Some st' ->
  (Mirror.intervalId st = true -> Mirror.isRunning st = true) ->
  (Mirror.intervalId st' = true -> Mirror.isRunning st' = true) /\
  (Mirror.isStartClick e = false -> Mirror.intervalId st = false ->
   Mirror.intervalId st' = false).
Proof.
  intros Hf Hinv. destruct st as [cs ir iid]. simpl in Hinv.
  destruct e as [u | | b]; simpl in Hf.
  - injection Hf as <-. rewrite onPipUpdate_eq.
    simpl. split.
    + intros H. apply andb_prop in H. tauto.
    + intros _ ->. reflexivity.
  - destruct iid; [| discriminate]. injection Hf as <-.
    rewrite (Hinv eq_refl). unfold Mirror.intervalFires. simpl.
    split; [| discriminate].
    destruct (Z.max 0 (cs - 1) =? 0); simpl; intros H;
      [discriminate | reflexivity].
  - unfold Mirror.click in Hf.
    destruct (Mirror.shown d _ b) eqn:Hs; [| discriminate].
    simpl in Hf. injection Hf as <-.
    destruct b; simpl in *.
    + apply negb_true_iff in Hs. subst ir. unfold Mirror.startTimer. simpl.
      split; [reflexivity | discriminate].
    + split; discriminate || (intros _ _; reflexivity).
    + split; discriminate || (intros _ _; reflexivity).
Qed.

Lemma mirror_exec_interval d tr : forall st st',
  Mirror.exec d tr st = Some st' ->
  (Mirror.intervalId st = true -> Mirror.isRunning st = true) ->
  (Mirror.intervalId st' = true -> Mirror.isRunning st' = true) /\
  (existsb Mirror.isStartClick tr = false -> Mirror.intervalId st = false ->
   Mirror.intervalId st' = false).
Proof.
  induction tr as [| e tr IH]; intros st st' He Hinv; simpl in He.
  - injection He as <-. split; [exact Hinv | intros _ H; exact H].
  - destruct (Mirror.fire d e st) as [st1 |] eqn:Hf; [| discriminate].
    destruct (mirror_fire_interval d e st st1 Hf Hinv) as [Hinv1 Hoff1].
    destruct (IH st1 st' He Hinv1) as [Hinv' Hoff'].
    split; [exact Hinv' |].
    simpl. intros Hno Hoff. apply orb_false_elim in Hno as [He1 Htr].
    apply Hoff'; [exact Htr |]. now apply Hoff1.
Qed.

(** X7. Whatever the detached window receives and whatever is clicked in
    it after it was written: its own one-second interval is installed only
    while it shows running, and it is never installed before the window's
    Start button has been clicked; pushes from the page alone leave the
    window without a clock of its own. *)
Theorem mirror_counts_only_after_its_start_button :
  forall initialDuration secondsLeft running tr st',
    Mirror.exec initialDuration tr (Mirror.loaded secondsLeft running)
    = Some st' ->
    (Mirror.intervalId st' = true -> Mirror.isRunning st' = true) /\
    (existsb Mirror.isStartClick tr = false -> Mirror.intervalId st' = false).
Proof.
  intros d sl r tr st' He.
  destruct (mirror_exec_interval d tr _ st' He) as [Hinv Hoff].
  - simpl. discriminate.
  - split; [exact Hinv |]. intros Hno. now apply Hoff.
Qed.

(** A window written while the page runs, then pushed to twice and
    stopped by its Stop button: no interval. *)
Lemma mirror_counts_only_after_its_start_button_example :
  let tr := [ Mirror.Update {| Pip.seconds := 1499; Pip.upd_running := true;
                               Pip.mode := focus |};
              Mirror.Update {| Pip.seconds := 1498; Pip.upd_running := true;
                               Pip.mode := focus |};
              Mirror.Click Mirror.StopButton ] in
  let st' := {| Mirror.currentSeconds := 1498; Mirror.isRunning := false;
                Mirror.intervalId := false |} in
  Mirror.exec 1500 tr (Mirror.loaded 1500 true) = Some st' /\
  (Mirror.intervalId st' = true -> Mirror.isRunning st' = true) /\
  (existsb Mirror.isStartClick tr = false -> Mirror.intervalId st' = false).
Proof.
  intros tr st'. split; [reflexivity |].
  apply (mirror_counts_only_after_its_start_button 1500 1500 true tr st').
  reflexivity.
Defined.

Lemma mirror_fires_count n : forall cs,
  Z.of_nat n < cs ->
  Mirror.fires n {| Mirror.currentSeconds := cs; Mirror.isRunning := true;
                    Mirror.intervalId := true |}
  = {| Mirror.currentSeconds := cs - Z.of_nat n; Mirror.isRunning := true;
       Mirror.intervalId := true |}.
Proof.
  induction n as [| n IH]; intros cs Hcs.
  - change (Z.of_nat 0) with 0. rewrite Z.sub_0_r. reflexivity.
  - change (Mirror.fires (S n) ?s) with (Mirror.fires n (Mirror.intervalFires s)).
    unfold Mirror.intervalFires. simpl.
    replace (Z.max 0 (cs - 1)) with (cs - 1) by lia.
    destruct (cs - 1 =? 0) eqn:E; [apply Z.eqb_eq in E; lia |].
    rewrite IH by lia. f_equal. lia.
Qed.

Lemma mirror_fires_last n st :
  Mirror.fires (S n) st = Mirror.intervalFires (Mirror.fires n st).
Proof.
  revert st. induction n as [| n IH]; intros st; [reflexivity |].
  change (Mirror.fires (S (S n)) st)
    with (Mirror.fires (S n) (Mirror.intervalFires st)).
  rewrite IH. reflexivity.
Qed.

(** X8. Once the Start button of the detached window has installed its
    interval, the window counts down by itself: with [m >= 1] seconds
    shown, [n < m] firings leave [m - n] seconds and the interval in place,
    and the [m]-th firing shows zero, clears the interval and shows the
    window stopped; it does not move to another mode. *)
Theorem mirror_countdown_stops_at_zero :
  forall st m,
    Mirror.isRunning st = true ->
    Mirror.intervalId st = true ->
    Mirror.currentSeconds st = Z.of_nat m ->
    (1 <= m)%nat ->
    (forall n, (n < m)%nat ->
       Mirror.fires n st
       = {| Mirror.currentSeconds := Z.of_nat (m - n);
            Mirror.isRunning := true; Mirror.intervalId := true |}) /\
    Mirror.fires m st
    = {| Mirror.currentSeconds := 0; Mirror.isRunning := false;
         Mirror.intervalId := false |}.
Proof.
  intros [cs ir iid] m Hr Hi Hs Hm. simpl in *. subst ir iid cs. split.
  - intros n Hn. rewrite mirror_fires_count by lia. f_equal. lia.
  - destruct m as [| k]; [lia |].
    rewrite mirror_fires_last, mirror_fires_count by lia.
    unfold Mirror.intervalFires. cbn [Mirror.currentSeconds].
    replace (Z.max 0 (Z.of_nat (S k) - Z.of_nat k - 1)) with 0 by lia.
    reflexivity.
Qed.

(** Three seconds shown when Start is clicked in the window. *)
Lemma mirror_countdown_stops_at_zero_example :
  let st := Mirror.startTimer (Mirror.loaded 3 false) in
  Mirror.fires 2 st
  = {| Mirror.currentSeconds := 1; Mirror.isRunning := true;
       Mirror.intervalId := true |} /\
  Mirror.fires 3 st
  = {| Mirror.currentSeconds := 0; Mirror.isRunning := false;
       Mirror.intervalId := false |}.
Proof.
  intros st.
  destruct (mirror_countdown_stops_at_zero st 3 eq_refl eq_refl eq_refl
              ltac:(lia)) as [Hbefore Hlast].
  split; [apply (Hbefore 2%nat); lia | exact Hlast].
Defined.

(** X9. A button of the detached window answers a click, when the button
    is shown, by the local change and by posting [pip-control] with its
    action; [handleMessage] maps that message to [start], [stop] or [reset]
    of the page's first render.  That [reset] sets the focus duration
    whatever the mode is, and the window's own reset sets the duration it
    was written with.  So when the window showed the page's seconds and
    running flag, it shows them again after both have acted on Start and
    Stop; on Reset it does when it was written with the focus duration. *)
Theorem mirror_click_matches_page_operation :
  forall raw s m b initialDuration,
    Mirror.inSync s m ->
    Mirror.shown initialDuration m b = true ->
    (b = Mirror.ResetButton -> initialDuration = getTimerDuration raw focus) ->
    exists m',
      Mirror.click initialDuration b m
      = Some (m', DataValue (Some "pip-control") (Some (Mirror.actionOf b)))
      /\ handleMessage raw
           (DataValue (Some "pip-control") (Some (Mirror.actionOf b))) s
         = Some (Mirror.operationOf raw b s)
      /\ Mirror.inSync (Mirror.operationOf raw b s) m'.
Proof.
  intros raw s m b d [Hsec Hrun] Hshown Hd.
  unfold Mirror.click. rewrite Hshown.
  eexists. split; [reflexivity |]. split.
  - destruct b; reflexivity.
  - destruct b; unfold Mirror.inSync; simpl in *.
    + apply negb_true_iff in Hshown. unfold Mirror.startTimer.
      rewrite Hshown. simpl. split; [exact Hsec | reflexivity].
    + split; [exact Hsec | reflexivity].
    + split; [now apply Hd | reflexivity].
Qed.

(** The page stopped in the middle of a classic focus period, Reset
    clicked in the window. *)
Lemma mirror_click_matches_page_operation_example :
  let raw := builtin "pomodoro-classic" in
  let s := {| timerMode := focus; running := false;
              completedSessions := 0; secondsLeft := 900 |} in
  exists m',
    Mirror.click 1500 Mirror.ResetButton (Mirror.loaded 900 false)
    = Some (m', DataValue (Some "pip-control") (Some "reset"))
    /\ handleMessage raw (DataValue (Some "pip-control") (Some "reset")) s
       = Some {| timerMode := focus; running := false;
                 completedSessions := 0; secondsLeft := 1500 |}
    /\ Mirror.inSync {| timerMode := focus; running := false;
                        completedSessions := 0; secondsLeft := 1500 |} m'.
Proof.
  intros raw s.
  apply (mirror_click_matches_page_operation raw s (Mirror.loaded 900 false)
           Mirror.ResetButton 1500).
  - split; reflexivity.
  - reflexivity.
  - reflexivity.
Defined.

(** A window written during a classic long break: after Reset is clicked
    in it, the window shows the 900 seconds of the long break and the page
    the 1500 seconds of a focus period. *)
Example mirror_reset_in_a_break :
  let raw := builtin "pomodoro-classic" in
  let s := {| timerMode := long_break; running := false;
              completedSessions := 4; secondsLeft := 400 |} in
  Mirror.click 900 Mirror.ResetButton (Mirror.loaded 400 false)
  = Some ({| Mirror.currentSeconds := 900; Mirror.isRunning := false;
             Mirror.intervalId := false |},
          DataValue (Some "pip-control") (Some "reset")) /\
  handleMessage raw (DataValue (Some "pip-control") (Some "reset")) s
  = Some {| timerMode := long_break; running := false;
            completedSessions := 4; secondsLeft := 1500 |}.
Proof. split; reflexivity. Qed.

(** ** Ambient mode *)

Lemma ambient_tick_running st :
  Ambient.running st = true ->
  Ambient.tick st
  = {| Ambient.running := true;
       Ambient.secondsLeft := Ambient.countDown (Ambient.secondsLeft st) |}.
Proof.
  intros Hr. unfold Ambient.tick. rewrite Hr. reflexivity.
Qed.

(** X10. The ambient timer only saturates: after [n >= 1] firings of its
    interval a running timer shows [max 0 (v - n)] for the [v] it showed,
    and it is still running, also at zero, where nothing else happens; a
    value that is [NaN] (stored settings without [ambientDuration]) stays
    [NaN]. *)
Theorem ambient_countdown_saturates_and_keeps_running :
  forall st n,
    Ambient.running st = true ->
    (1 <= n)%nat ->
    Ambient.ticks n st
    = {| Ambient.running := true;
         Ambient.secondsLeft :=
           option_map (fun v => Z.max 0 (v - Z.of_nat n))
                      (Ambient.secondsLeft st) |}.
Proof.
  intros st n Hr Hn. revert st Hr.
  induction n as [| n IH]; [lia |]. intros st Hr.
  change (Ambient.ticks (S n) st) with (Ambient.ticks n (Ambient.tick st)).
  rewrite ambient_tick_running by exact Hr.
  destruct n as [| n'].
  - destruct (Ambient.secondsLeft st); reflexivity.
  - rewrite IH by (reflexivity || lia). cbn [Ambient.secondsLeft].
    f_equal. destruct (Ambient.secondsLeft st) as [v |]; [| reflexivity].
    cbn [Ambient.countDown option_map]. f_equal. lia.
Qed.

(** Nothing stored: five minutes; seven minutes after Start the timer
    shows zero and is still running. *)
Lemma ambient_countdown_saturates_example :
  Ambient.ticks 420 (Ambient.start (Ambient.mount Ambient.NoItem))
  = {| Ambient.running := true; Ambient.secondsLeft := Some 0 |}.
Proof.
  rewrite (ambient_countdown_saturates_and_keeps_running
             (Ambient.start (Ambient.mount Ambient.NoItem)) 420);
    [reflexivity | reflexivity | lia].
Defined.

(** ** The timer display *)

Lemma allBelow_spec n f :
  Display.allBelow n f = true ->
  forall z, 0 <= z < n -> f z = true.
Proof.
  unfold Display.allBelow. intros H z Hz.
  rewrite forallb_forall in H. apply H.
  apply in_map_iff. exists (Z.to_nat z). split; [lia |].
  apply in_seq. lia.
Qed.

Lemma readsBack_below_100_minutes :
  Display.allBelow 6000 Display.readsBack = true.
Proof. vm_compute. reflexivity. Qed.

Lemma spansSpell_below_100_minutes :
  Display.allBelow 6000 Display.spansSpell = true.
Proof. vm_compute. reflexivity. Qed.

(** X11. For every number of seconds below 100 minutes [formatTimer] gives
    five characters, two digits on each side of a colon, and reading the
    two halves back with [parseInt] gives the whole minutes and the
    remaining seconds. *)
Theorem formatTimer_reads_back :
  forall seconds,
    0 <= seconds < 6000 ->
    String.length (Display.formatTimer seconds) = 5%nat /\
    String.get 2 (Display.formatTimer seconds) = Some ":"%char /\
    Js.parseInt (String.substring 0 2 (Display.formatTimer seconds))
    = Some (seconds / 60) /\
    Js.parseInt (String.substring 3 2 (Display.formatTimer seconds))
    = Some (seconds mod 60).
Proof.
  intros seconds Hs.
  pose proof (allBelow_spec 6000 _ readsBack_below_100_minutes seconds) as H.
  specialize (H ltac:(lia)). unfold Display.readsBack in H.
  cbv zeta in H.
  apply andb_prop in H as [H Hparse]. apply andb_prop in H as [Hlen Hcolon].
  apply Nat.eqb_eq in Hlen.
  destruct (String.get 2 (Display.formatTimer seconds)) as [c |];
    [| discriminate].
  simpl in Hcolon. apply Ascii.eqb_eq in Hcolon. subst c.
  destruct (Js.parseInt (String.substring 0 2 (Display.formatTimer seconds)))
    as [m |]; [| discriminate].
  destruct (Js.parseInt (String.substring 3 2 (Display.formatTimer seconds)))
    as [sec |]; [| discriminate].
  apply andb_prop in Hparse as [Hm Hsec].
  apply Z.eqb_eq in Hm, Hsec. subst m sec. repeat split; assumption.
Qed.

(** 24 minutes 59 seconds. *)
Lemma formatTimer_reads_back_example :
  Display.formatTimer 1499 = "24:59" /\
  String.length (Display.formatTimer 1499) = 5%nat /\
  String.get 2 (Display.formatTimer 1499) = Some ":"%char /\
  Js.parseInt (String.substring 0 2 (Display.formatTimer 1499))
  = Some (1499 / 60) /\
  Js.parseInt (String.substring 3 2 (Display.formatTimer 1499))
  = Some (1499 mod 60).
Proof.
  split; [reflexivity |].
  apply (formatTimer_reads_back 1499). lia.
Defined.

(** X12. Below 100 minutes the five spans that [AnimatedTimer] renders
    spell exactly what [formatTimer] returns for the same seconds. *)
Theorem animated_timer_spells_formatTimer :
  forall seconds,
    0 <= seconds < 6000 ->
    Display.textOf (Display.spans seconds) = Display.formatTimer seconds.
Proof.
  intros seconds Hs.
  pose proof (allBelow_spec 6000 _ spansSpell_below_100_minutes seconds) as H.
  specialize (H ltac:(lia)). unfold Display.spansSpell in H.
  now apply String.eqb_eq in H.
Qed.

Lemma animated_timer_spells_formatTimer_example :
  Display.textOf (Display.spans 305) = "05:05" /\
  Display.textOf (Display.spans 305) = Display.formatTimer 305.
Proof.
  split; [reflexivity |].
  apply (animated_timer_spells_formatTimer 305). lia.
Defined.

(** From 100 minutes on the display drops the third digit of the minutes
    (a preset may have up to 480 minutes of focus). *)
Example animated_timer_at_100_minutes :
  Display.formatTimer 6000 = "100:00" /\
  Display.textOf (Display.spans 6000) = "10:00".
Proof. split; reflexivity. Qed.

Lemma formatTimer_not_empty seconds :
  String.eqb (Display.formatTimer seconds) "" = false.
Proof.
  unfold Display.formatTimer. cbv zeta.
  destruct (Display.padStart 2 (Display.toString (seconds / 60)));
    reflexivity.
Qed.

Lemma timeChanged_keeps_ref currentTime t :
  String.eqb (Display.prevTimeRef t) "" = false ->
  Display.prevTimeRef (Display.timeChanged currentTime t)
  = Display.prevTimeRef t.
Proof.
  intros Hne. unfold Display.timeChanged. rewrite Hne. simpl.
  destruct (String.eqb (Display.prevTimeRef t) currentTime) eqn:E; simpl.
  - apply String.eqb_eq in E. now symmetry.
  - reflexivity.
Qed.

Lemma handle_keeps_ref e t :
  String.eqb (Display.prevTimeRef t) "" = false ->
  Display.prevTimeRef (Display.handle e t) = Display.prevTimeRef t.
Proof.
  intros Hne. destruct e as [seconds |]; simpl.
  - unfold Display.render.
    destruct (Display.lastTime t) as [last |].
    + destruct (String.eqb last (Display.formatTimer seconds));
        [reflexivity | now apply timeChanged_keeps_ref].
    + now apply timeChanged_keeps_ref.
  - unfold Display.animationEnds. destruct (Display.timer t); reflexivity.
Qed.

Lemma play_keeps_ref events : forall t,
  String.eqb (Display.prevTimeRef t) "" = false ->
  Display.prevTimeRef (Display.play events t) = Display.prevTimeRef t.
Proof.
  induction events as [| e events IH]; intros t Hne; [reflexivity |].
  simpl. rewrite IH; rewrite handle_keeps_ref by exact Hne;
    [reflexivity | exact Hne].
Qed.

(** X13. [AnimatedTimer] remembers the first time it displayed and no
    other: whatever it renders afterwards and whenever its timeout fires,
    [prevTimeRef] holds the text of the first render, because the effect
    returns before its assignment whenever it animates.  So the digits
    that animate at a later render of a new time are those in which that
    time differs from the first one displayed. *)
Theorem animated_timer_compares_with_first_time :
  forall first events,
    let t := Display.play (Display.Renders first :: events) Display.mounting in
    Display.prevTimeRef t = Display.formatTimer first /\
    forall seconds,
      Display.lastTime t <> Some (Display.formatTimer seconds) ->
      Display.formatTimer seconds <> Display.formatTimer first ->
      Display.animatingDigits (Display.render seconds t)
      = Display.finalChanges
          (Display.changes (Display.formatTimer seconds)
                           (Display.formatTimer first)).
Proof.
  intros first events t.
  assert (Href : Display.prevTimeRef t = Display.formatTimer first).
  { unfold t. simpl. unfold Display.render. simpl.
    rewrite play_keeps_ref; unfold Display.timeChanged; simpl;
      [reflexivity | apply formatTimer_not_empty]. }
  split; [exact Href |].
  intros seconds Hlast Hdiff.
  assert (Hrun : Display.render seconds t
                 = Display.timeChanged (Display.formatTimer seconds) t).
  { unfold Display.render. destruct (Display.lastTime t) as [last |];
      [| reflexivity].
    destruct (String.eqb last (Display.formatTimer seconds)) eqn:E;
      [| reflexivity].
    apply String.eqb_eq in E. subst last. now elim Hlast. }
  rewrite Hrun. unfold Display.timeChanged. rewrite Href.
  rewrite formatTimer_not_empty.
  destruct (String.eqb (Display.formatTimer first)
                       (Display.formatTimer seconds)) eqn:E.
  - apply String.eqb_eq in E. now elim Hdiff.
  - reflexivity.
Qed.

(** Counting down from 25:00: at 24:50 the seconds' units did not change
    against 25:00 and the tens did, so both seconds digits animate. *)
Example animated_timer_at_24_50 :
  let t := Display.play
             [Display.Renders 1500; Display.Renders 1499;
              Display.TimeoutFires; Display.Renders 1491;
              Display.TimeoutFires]
             Display.mounting in
  Display.prevTimeRef t = "25:00" /\
  Display.animatingDigits (Display.render 1490 t) = [3%nat; 4%nat].
Proof. split; reflexivity. Qed.

(** ** Timer settings of the settings section *)

Lemma findById_id i ps p :
  Settings.findById i ps = Some p -> id p = i.
Proof.
  unfold Settings.findById. intros H. apply find_some in H as [_ H].
  now apply String.eqb_eq in H.
Qed.

Lemma findById_None i ps :
  Settings.findById i ps = None <-> ~ In i (map id ps).
Proof.
  unfold Settings.findById. induction ps as [| p ps IH]; simpl.
  - split; [intros _ [] | reflexivity].
  - destruct (String.eqb (id p) i) eqn:E.
    + apply String.eqb_eq in E. split; [discriminate | intros H; elim H; now left].
    + apply String.eqb_neq in E. rewrite IH. tauto.
Qed.

Lemma findById_app i l1 l2 :
  Settings.findById i (l1 ++ l2)
  = match Settings.findById i l1 with
    | Some q => Some q
    | None => Settings.findById i l2
    end.
Proof.
  unfold Settings.findById. induction l1 as [| x l1 IH]; simpl;
    [reflexivity |].
  destruct (String.eqb (id x) i); [reflexivity | exact IH].
Qed.

Lemma findById_map i (f : TimerPreset -> TimerPreset) l :
  (forall x, id (f x) = id x) ->
  Settings.findById i (map f l) = option_map f (Settings.findById i l).
Proof.
  intros Hf. unfold Settings.findById.
  induction l as [| x l IH]; simpl; [reflexivity |].
  rewrite Hf. destruct (String.eqb (id x) i); [reflexivity | exact IH].
Qed.

Lemma mergeDefaults_keeps_id stored d :
  id match Settings.findById (id d) stored with
     | Some existing => existing
     | None => d
     end = id d.
Proof.
  destruct (Settings.findById (id d) stored) as [e |] eqn:E;
    [now apply findById_id in E | reflexivity].
Qed.

Lemma mergeDefaults_ids stored :
  map id (Settings.mergeDefaults stored) = map id getDefaultPresets.
Proof.
  unfold Settings.mergeDefaults. rewrite map_map.
  apply map_ext. intros d. apply mergeDefaults_keeps_id.
Qed.

Lemma findById_mergeDefaults i stored :
  Settings.findById i (Settings.mergeDefaults stored)
  = match Settings.findById i getDefaultPresets with
    | Some d =>
        match Settings.findById i stored with
        | Some e => Some e
        | None => Some d
        end
    | None => None
    end.
Proof.
  unfold Settings.mergeDefaults.
  rewrite findById_map by (intros x; apply mergeDefaults_keeps_id).
  destruct (Settings.findById i getDefaultPresets) as [d |] eqn:E;
    [| reflexivity].
  simpl. apply findById_id in E. rewrite E.
  destruct (Settings.findById i stored); reflexivity.
Qed.

Lemma pushMissing_step merged p stored :
  Settings.pushMissing merged (p :: stored)
  = Settings.pushMissing
      match Settings.findById (id p) merged with
      | Some _ => merged
      | None => (merged ++ [p])%list
      end stored.
Proof. reflexivity. Qed.

Lemma findById_pushMissing i stored : forall merged,
  Settings.findById i (Settings.pushMissing merged stored)
  = match Settings.findById i merged with
    | Some q => Some q
    | None => Settings.findById i stored
    end.
Proof.
  induction stored as [| p stored IH]; intros merged.
  - simpl. destruct (Settings.findById i merged); reflexivity.
  - rewrite pushMissing_step, IH.
    destruct (Settings.findById (id p) merged) as [q |] eqn:Ep.
    + destruct (Settings.findById i merged) as [r |] eqn:Ei; [reflexivity |].
      unfold Settings.findById at 2. simpl.
      destruct (String.eqb (id p) i) eqn:E; [| reflexivity].
      apply String.eqb_eq in E. congruence.
    + rewrite findById_app.
      destruct (Settings.findById i merged); [reflexivity |].
      unfold Settings.findById at 1 3. simpl.
      destruct (String.eqb (id p) i); reflexivity.
Qed.

Lemma pushMissing_extends stored : forall merged,
  exists extra,
    Settings.pushMissing merged stored = (merged ++ extra)%list.
Proof.
  induction stored as [| p stored IH]; intros merged.
  - exists []. simpl. now rewrite app_nil_r.
  - rewrite pushMissing_step.
    destruct (Settings.findById (id p) merged).
    + apply IH.
    + destruct (IH (merged ++ [p])%list) as [extra He].
      exists (p :: extra). rewrite He, <- app_assoc. reflexivity.
Qed.

Lemma NoDup_snoc (l : list string) (x : string) :
  NoDup l -> ~ In x l -> NoDup (l ++ [x]).
Proof.
  intros Hnd Hx. induction l as [| y l IH]; simpl.
  - constructor; [intros [] | constructor].
  - inversion Hnd as [| ? ? Hy Hl]; subst. constructor.
    + rewrite in_app_iff. simpl. intros [H | [H | []]]; [now apply Hy |].
      subst. apply Hx. now left.
    + apply IH; [exact Hl |]. intros H. apply Hx. now right.
Qed.

Lemma pushMissing_NoDup stored : forall merged,
  NoDup (map id merged) ->
  NoDup (map id (Settings.pushMissing merged stored)).
Proof.
  induction stored as [| p stored IH]; intros merged Hnd; [exact Hnd |].
  rewrite pushMissing_step.
  destruct (Settings.findById (id p) merged) eqn:E; apply IH;
    [exact Hnd |].
  apply findById_None in E.
  rewrite map_app. simpl.
  apply NoDup_snoc; assumption.
Qed.

Lemma default_ids_distinct : NoDup (map id getDefaultPresets).
Proof.
  simpl. repeat (constructor; [simpl; intuition discriminate |]).
  constructor.
Qed.

Lemma findById_mergePresets stored i :
  Settings.findById i (Settings.mergePresets stored)
  = match Settings.findById i stored with
    | Some existing => Some existing
    | None => Settings.findById i getDefaultPresets
    end.
Proof.
  unfold Settings.mergePresets.
  rewrite findById_pushMissing, findById_mergeDefaults.
  destruct (Settings.findById i getDefaultPresets);
    destruct (Settings.findById i stored); reflexivity.
Qed.

(** X14. Looking a preset up by id in the merged list of the local
    fallback gives the stored preset of that id whenever the store has
    one (the first, if several), and the built-in one otherwise: stored
    customisations win, built-ins fill in, and ids in neither are not
    found. *)
Theorem merged_presets_lookup :
  forall stored i,
    Settings.findById i (Settings.mergePresets stored)
    = match Settings.findById i stored with
      | Some existing => Some existing
      | None => Settings.findById i getDefaultPresets
      end.
Proof.
  intros stored i. apply findById_mergePresets.
Qed.

(** X15. The merged list starts with one preset for each built-in, in the
    built-ins' order, carries no id twice even when the store does, and
    holds the id of every stored preset. *)
Theorem merged_presets_shape :
  forall stored,
    map id (firstn (List.length getDefaultPresets)
                   (Settings.mergePresets stored))
    = map id getDefaultPresets /\
    NoDup (map id (Settings.mergePresets stored)) /\
    (forall p, In p stored ->
               In (id p) (map id (Settings.mergePresets stored))).
Proof.
  intros stored. split; [| split].
  - unfold Settings.mergePresets.
    destruct (pushMissing_extends stored (Settings.mergeDefaults stored))
      as [extra ->].
    replace (List.length getDefaultPresets)
      with (List.length (Settings.mergeDefaults stored) + 0)%nat
      by (unfold Settings.mergeDefaults; rewrite length_map; lia).
    rewrite firstn_app_2. cbn [firstn]. rewrite app_nil_r.
    apply mergeDefaults_ids.
  - unfold Settings.mergePresets. apply pushMissing_NoDup.
    rewrite mergeDefaults_ids. exact default_ids_distinct.
  - intros p Hp.
    destruct (Settings.findById (id p) (Settings.mergePresets stored))
      as [q |] eqn:E.
    + pose proof (findById_id _ _ _ E) as Hq. rewrite <- Hq.
      apply in_map. unfold Settings.findById in E.
      now apply find_some in E as [Hin _].
    + unfold Settings.mergePresets in E.
      rewrite findById_pushMissing, findById_mergeDefaults in E.
      assert (Hs : Settings.findById (id p) stored <> None).
      { rewrite findById_None. intros H. apply H. now apply in_map. }
      destruct (Settings.findById (id p) stored); [| now elim Hs].
      destruct (Settings.findById (id p) getDefaultPresets); discriminate.
Qed.

(** ** Reading back what a number input shows *)

Lemma digits_step radix a c k s :
  Js.digitValue radix c = Some k ->
  Js.digits radix (Some a) (String c s)
  = Js.digits radix (Some (a * radix + k)) s.
Proof. intros H. simpl. rewrite H. reflexivity. Qed.

Lemma digits_first radix c k s :
  Js.digitValue radix c = Some k ->
  Js.digits radix None (String c s) = Js.digits radix (Some k) s.
Proof. intros H. simpl. rewrite H. reflexivity. Qed.

Ltac digit_step :=
  first [ rewrite (digits_step 10 _ _ 0) by reflexivity
        | rewrite (digits_step 10 _ _ 1) by reflexivity
        | rewrite (digits_step 10 _ _ 2) by reflexivity
        | rewrite (digits_step 10 _ _ 3) by reflexivity
        | rewrite (digits_step 10 _ _ 4) by reflexivity
        | rewrite (digits_step 10 _ _ 5) by reflexivity
        | rewrite (digits_step 10 _ _ 6) by reflexivity
        | rewrite (digits_step 10 _ _ 7) by reflexivity
        | rewrite (digits_step 10 _ _ 8) by reflexivity
        | rewrite (digits_step 10 _ _ 9) by reflexivity ].

Ltac digit_first :=
  first [ rewrite (digits_first 10 _ 0) by reflexivity
        | rewrite (digits_first 10 _ 1) by reflexivity
        | rewrite (digits_first 10 _ 2) by reflexivity
        | rewrite (digits_first 10 _ 3) by reflexivity
        | rewrite (digits_first 10 _ 4) by reflexivity
        | rewrite (digits_first 10 _ 5) by reflexivity
        | rewrite (digits_first 10 _ 6) by reflexivity
        | rewrite (digits_first 10 _ 7) by reflexivity
        | rewrite (digits_first 10 _ 8) by reflexivity
        | rewrite (digits_first 10 _ 9) by reflexivity ].

Lemma digits_of_uint_acc u : forall acc,
  Js.digits 10 (Some (Z.pos acc)) (NilEmpty.string_of_uint u)
  = Some (Z.pos (Pos.of_uint_acc u acc)).
Proof.
  induction u as [| u IH | u IH | u IH | u IH | u IH | u IH | u IH | u IH
                  | u IH | u IH]; intros acc;
    cbn [NilEmpty.string_of_uint Pos.of_uint_acc]; [reflexivity | ..];
    digit_step; rewrite <- IH; do 2 f_equal; lia.
Qed.

Lemma digits_of_uint_zero u :
  Js.digits 10 (Some 0) (NilEmpty.string_of_uint u)
  = Some (Z.of_N (Pos.of_uint u)).
Proof.
  induction u as [| u IH | u IH | u IH | u IH | u IH | u IH | u IH | u IH
                  | u IH | u IH];
    cbn [NilEmpty.string_of_uint Pos.of_uint]; [reflexivity | ..];
    digit_step; [exact IH | apply digits_of_uint_acc ..].
Qed.

Lemma digits_of_uint u :
  u <> Decimal.Nil ->
  Js.digits 10 None (NilEmpty.string_of_uint u)
  = Some (Z.of_N (Pos.of_uint u)).
Proof.
  intros Hu. destruct u; [congruence | ..];
    cbn [NilEmpty.string_of_uint Pos.of_uint];
    digit_first; [apply digits_of_uint_zero | apply digits_of_uint_acc ..].
Qed.

Lemma parseInt_of_uint u :
  u <> Decimal.Nil ->
  Js.parseInt (NilEmpty.string_of_uint u)
  = match Js.digits 10 None (NilEmpty.string_of_uint u) with
    | Some m => Some (1 * m)
    | None => None
    end.
Proof.
  intros Hu. destruct u as [| v | v | v | v | v | v | v | v | v | v];
    [congruence | ..]; destruct v; reflexivity.
Qed.

Lemma parseInt_of_minus_uint u :
  u <> Decimal.Nil ->
  Js.parseInt (String "-" (NilEmpty.string_of_uint u))
  = match Js.digits 10 None (NilEmpty.string_of_uint u) with
    | Some m => Some (-1 * m)
    | None => None
    end.
Proof.
  intros Hu. destruct u as [| v | v | v | v | v | v | v | v | v | v];
    [congruence | ..]; destruct v; reflexivity.
Qed.

Lemma string_of_uint_nonnil u :
  u <> Decimal.Nil ->
  NilZero.string_of_uint u = NilEmpty.string_of_uint u.
Proof. destruct u; [congruence | reflexivity ..]. Qed.

Lemma parseInt_toString n :
  Js.parseInt (Display.toString n) = Some n.
Proof.
  unfold Display.toString. destruct n as [| p | p]; [reflexivity | |];
    cbn [Z.to_int NilZero.string_of_int];
    pose proof (DecimalPos.Unsigned.to_uint_nonnil p) as Hp;
    rewrite string_of_uint_nonnil by exact Hp.
  - rewrite parseInt_of_uint, digits_of_uint by exact Hp.
    rewrite DecimalPos.Unsigned.of_to. reflexivity.
  - rewrite parseInt_of_minus_uint, digits_of_uint by exact Hp.
    rewrite DecimalPos.Unsigned.of_to. reflexivity.
Qed.

Lemma orElse_some_nonzero n d :
  Js.orElse (Some n) d = if n =? 0 then d else n.
Proof. reflexivity. Qed.

(** X16. A number field of the preset editor stores any integer of at
    most [2^53 - 1] in magnitude (the integers that [parseInt] returns
    exactly) that is typed into it as it is, whatever the [min] and [max]
    of the input say, except zero, which becomes the field's default (25,
    5, 15 or 4); the other number fields, the id and the built-in flag keep
    their values. *)
Theorem number_field_stores_typed_integer :
  forall f p n,
    Z.abs n <= 9007199254740991 ->
    let edited := Settings.onChangeNumber f p (Display.toString n) in
    Settings.fieldOf f edited = (if n =? 0 then Settings.fallback f else n) /\
    (forall g, g <> f -> Settings.fieldOf g edited = Settings.fieldOf g p) /\
    id edited = id p /\
    isDefault edited = isDefault p.
Proof.
  intros f p n _ edited. unfold edited.
  repeat split.
  - destruct f; simpl; rewrite parseInt_toString; apply orElse_some_nonzero.
  - intros g Hg. destruct f, g; try reflexivity; now elim Hg.
  - destruct f; reflexivity.
  - destruct f; reflexivity.
Qed.

(** 600 minutes of focus, beyond the input's [max] of 480, and a zero. *)
Lemma number_field_stores_typed_integer_example :
  Settings.fieldOf Settings.FocusDuration
    (Settings.onChangeNumber Settings.FocusDuration (newCustomPreset "1")
       "600") = 600 /\
  Settings.fieldOf Settings.ShortBreakDuration
    (Settings.onChangeNumber Settings.ShortBreakDuration
       (newCustomPreset "1") "0") = 5.
Proof.
  split.
  - assert (Hn : Z.abs 600 <= 9007199254740991) by (vm_compute; discriminate).
    exact (proj1 (number_field_stores_typed_integer Settings.FocusDuration
                    (newCustomPreset "1") 600 Hn)).
  - assert (Hn : Z.abs 0 <= 9007199254740991) by (vm_compute; discriminate).
    exact (proj1 (number_field_stores_typed_integer
                    Settings.ShortBreakDuration (newCustomPreset "1") 0 Hn)).
Defined.

Lemma findById_filter i j l :
  Settings.findById i
    (filter (fun p => negb (String.eqb (id p) j)) l)
  = if String.eqb i j then None else Settings.findById i l.
Proof.
  unfold Settings.findById. induction l as [| x l IH]; simpl.
  - destruct (String.eqb i j); reflexivity.
  - destruct (String.eqb (id x) j) eqn:Ej; simpl.
    + rewrite IH. destruct (String.eqb i j) eqn:Eij; [reflexivity |].
      destruct (String.eqb (id x) i) eqn:Ei; [| reflexivity].
      apply String.eqb_eq in Ej, Ei. apply String.eqb_neq in Eij. congruence.
    + destruct (String.eqb (id x) i) eqn:Ei.
      * apply String.eqb_eq in Ei. subst i. rewrite Ej. reflexivity.
      * exact IH.
Qed.

Lemma filter_absent_id j l :
  ~ In j (map id l) ->
  filter (fun p => negb (String.eqb (id p) j)) l = l.
Proof.
  induction l as [| x l IH]; intros Hj; simpl; [reflexivity |].
  simpl in Hj.
  destruct (String.eqb (id x) j) eqn:E.
  - apply String.eqb_eq in E. tauto.
  - simpl. f_equal. apply IH. tauto.
Qed.

Lemma missing_false v : v <> "" -> Settings.missing (Some v) = false.
Proof. intros H. simpl. now apply String.eqb_neq. Qed.

(** X17. Creating a preset whose id is new and then deleting that id
    gives back the list there was: [create] appends the preset and selects
    it, [delete] removes every preset of the id and nothing else. *)
Theorem create_then_delete_restores_presets :
  forall current p sel,
    id p <> "" ->
    sel <> "" ->
    ~ In (id p) (map id current) ->
    exists created,
      Settings.handlePresetOperation (Settings.Create (Some p)) current
      = Some (id p, created) /\
      Settings.findById (id p) created = Some p /\
      Settings.handlePresetOperation
        (Settings.Delete (Some (id p)) (Some sel)) created
      = Some (sel, current).
Proof.
  intros current p sel Hid Hsel Hfresh.
  exists (current ++ [p])%list. split; [reflexivity |]. split.
  - rewrite findById_app.
    apply findById_None in Hfresh. rewrite Hfresh.
    unfold Settings.findById. simpl. now rewrite String.eqb_refl.
  - unfold Settings.handlePresetOperation.
    rewrite !missing_false by assumption. simpl.
    rewrite filter_app, filter_absent_id by exact Hfresh.
    simpl. rewrite String.eqb_refl. simpl. now rewrite app_nil_r.
Qed.

Lemma create_then_delete_restores_presets_example :
  exists created,
    Settings.handlePresetOperation
      (Settings.Create (Some (newCustomPreset "1"))) getDefaultPresets
    = Some ("custom-1", created) /\
    Settings.findById "custom-1" created = Some (newCustomPreset "1") /\
    Settings.handlePresetOperation
      (Settings.Delete (Some "custom-1") (Some "pomodoro-classic")) created
    = Some ("pomodoro-classic", getDefaultPresets).
Proof.
  apply (create_then_delete_restores_presets getDefaultPresets
           (newCustomPreset "1") "pomodoro-classic").
  - discriminate.
  - discriminate.
  - simpl. intuition discriminate.
Defined.

(** X18. The Delete button, which is offered for the preset of the local
    selection when that is not a built-in, always moves the selection to
    Classic Pomodoro; afterwards the deleted id is not found in the list
    and every other id is found as before. *)
Theorem delete_button_selects_classic :
  forall localSelectedPreset current cur,
    localSelectedPreset <> "" ->
    Settings.currentPreset localSelectedPreset current = Some cur ->
    isDefault cur = false ->
    exists rest,
      match Settings.deleteClicked localSelectedPreset current with
      | Some operation => Settings.handlePresetOperation operation current
      | None => None
      end = Some (Settings.classicId, rest) /\
      Settings.findById localSelectedPreset rest = None /\
      (forall i, i <> localSelectedPreset ->
                 Settings.findById i rest = Settings.findById i current).
Proof.
  intros sel current cur Hsel Hcur Hdef.
  pose proof (findById_id _ _ _ Hcur) as Hid.
  unfold Settings.deleteClicked. rewrite Hcur, Hdef, Hid, String.eqb_refl.
  unfold Settings.handlePresetOperation.
  rewrite !missing_false by (assumption || discriminate).
  simpl. eexists. split; [reflexivity |]. split.
  - rewrite findById_filter, String.eqb_refl. reflexivity.
  - intros i Hi. rewrite findById_filter.
    apply String.eqb_neq in Hi. now rewrite Hi.
Qed.

Lemma delete_button_selects_classic_example :
  let current := (getDefaultPresets ++ [newCustomPreset "1"])%list in
  exists rest,
    match Settings.deleteClicked "custom-1" current with
    | Some operation => Settings.handlePresetOperation operation current
    | None => None
    end = Some ("pomodoro-classic", rest) /\
    Settings.findById "custom-1" rest = None /\
    (forall i, i <> "custom-1" ->
               Settings.findById i rest = Settings.findById i current).
Proof.
  intros current.
  apply (delete_button_selects_classic "custom-1" current
           (newCustomPreset "1")).
  - discriminate.
  - reflexivity.
  - reflexivity.
Defined.

Lemma onChangeNumber_id f p value :
  id (Settings.onChangeNumber f p value) = id p /\
  isDefault (Settings.onChangeNumber f p value) = isDefault p.
Proof. destruct f; split; reflexivity. Qed.

Lemma typeAll_id entries : forall p,
  id (Settings.typeAll entries p) = id p /\
  isDefault (Settings.typeAll entries p) = isDefault p.
Proof.
  induction entries as [| [f value] entries IH]; intros p; simpl.
  - split; reflexivity.
  - destruct (IH (Settings.onChangeNumber f p value)) as [H1 H2].
    destruct (onChangeNumber_id f p value) as [H3 H4].
    split; congruence.
Qed.

Lemma savePresets_absent_id ps e :
  ~ In (id e) (map id ps) -> savePresets ps e = ps.
Proof.
  unfold savePresets. induction ps as [| x ps IH]; intros H; simpl;
    [reflexivity |].
  simpl in H. destruct (String.eqb (id x) (id e)) eqn:E.
  - apply String.eqb_eq in E. tauto.
  - f_equal. apply IH. tauto.
Qed.

(** X19. Editing a built-in preset never changes it: Edit creates a copy
    under a [custom-] id, not flagged as built-in, and when that id is
    new, whatever is typed into the number fields before Save, the saved
    list is the list there was followed by the edited copy. *)
Theorem editing_a_builtin_changes_a_copy :
  forall stamp cur current entries,
    isDefault cur = true ->
    ~ In ("custom-" ++ stamp) (map id current) ->
    let editing := fst (Settings.editClicked stamp cur current) in
    let created := snd (Settings.editClicked stamp cur current) in
    let edited := Settings.typeAll entries editing in
    savePresets created edited = (current ++ [edited])%list /\
    id edited = "custom-" ++ stamp /\
    isDefault edited = false.
Proof.
  intros stamp cur current entries Hdef Hfresh editing created edited.
  subst editing created edited. unfold Settings.editClicked. rewrite Hdef.
  cbn [fst snd].
  destruct (typeAll_id entries (Settings.userCopy stamp cur)) as [Hid Hd].
  change (id (Settings.userCopy stamp cur)) with ("custom-" ++ stamp) in Hid.
  split; [| split; [exact Hid | exact Hd]].
  unfold savePresets. rewrite map_app. f_equal.
  - apply savePresets_absent_id. now rewrite Hid.
  - cbn [map]. rewrite Hid.
    change (id (Settings.userCopy stamp cur)) with ("custom-" ++ stamp).
    rewrite String.eqb_refl. reflexivity.
Qed.

(** Edit on Classic Pomodoro, 50 and 10 typed into the duration fields,
    Save. *)
Lemma editing_a_builtin_changes_a_copy_example :
  let entries := [(Settings.FocusDuration, "50");
                  (Settings.ShortBreakDuration, "10")] in
  let edited := Settings.typeAll entries
                  (Settings.userCopy "1" classicPreset) in
  savePresets (snd (Settings.editClicked "1" classicPreset getDefaultPresets))
    edited
  = (getDefaultPresets ++ [edited])%list /\
  id edited = "custom-1" /\
  isDefault edited = false.
Proof.
  intros entries edited.
  apply (editing_a_builtin_changes_a_copy "1" classicPreset
           getDefaultPresets entries).
  - reflexivity.
  - simpl. intuition discriminate.
Defined.

(** ** Appearance settings *)

Lemma orElse_nonzero x d : d <> 0 -> Js.orElse x d <> 0.
Proof.
  intros Hd. destruct x as [v |]; simpl; [| exact Hd].
  destruct (v =? 0) eqn:E; [exact Hd | now apply Z.eqb_neq in E].
Qed.

(** X20. Without server settings the section always computes usable
    timer settings, whatever the stored item holds: a selection that is
    not empty, a preset list in which every built-in id is found, and
    durations that are not zero. *)
Theorem local_timer_settings_are_usable :
  forall raw,
    View.selectedPreset (Settings.timerSettings None raw) <> "" /\
    (forall d, In d getDefaultPresets ->
       Settings.findById (id d) (View.presets (Settings.timerSettings None raw))
       <> None) /\
    View.focusDuration (Settings.timerSettings None raw) <> 0 /\
    View.ambientDuration (Settings.timerSettings None raw) <> 0.
Proof.
  intros raw.
  assert (Hdefaults : forall d, In d getDefaultPresets ->
            Settings.findById (id d) getDefaultPresets <> None).
  { intros d Hd. rewrite findById_None. intros H. apply H. now apply in_map. }
  destruct raw as [| | parsed]; cbn [Settings.timerSettings].
  - repeat split; try discriminate. exact Hdefaults.
  - repeat split; try discriminate. exact Hdefaults.
  - unfold Settings.valueOf.
    cbn [View.selectedPreset View.presets View.focusDuration
         View.ambientDuration].
    split; [| split; [| split]].
    + destruct (selectedPreset parsed) as [sel |]; [| discriminate].
      destruct (String.eqb sel "") eqn:E; [discriminate |].
      now apply String.eqb_neq in E.
    + intros d Hd. destruct (presets parsed) as [stored |];
        [| now apply Hdefaults].
      rewrite findById_mergePresets.
      destruct (Settings.findById (id d) stored); [discriminate |].
      now apply Hdefaults.
    + apply orElse_nonzero. discriminate.
    + apply orElse_nonzero. discriminate.
Qed.

(** X21. Typing into the font-size input never takes the size out of the
    range from 12 to 40: an entry that does not parse to a number of that
    range is ignored. *)
Theorem font_size_stays_in_range :
  forall values fontSize,
    12 <= fontSize <= 40 ->
    12 <= Fonts.typeAll values fontSize <= 40.
Proof.
  induction values as [| value values IH]; intros fontSize Hf; simpl;
    [exact Hf |].
  apply IH. unfold Fonts.onChangeFontSize.
  destruct (Js.parseInt value) as [v |]; [| exact Hf].
  destruct ((12 <=? v) && (v <=? 40)) eqn:E; [| exact Hf].
  apply andb_prop in E as [E1 E2]. lia.
Qed.

Lemma font_size_stays_in_range_example :
  Fonts.typeAll ["4"; "41"; "abc"; "24"; "-12"; ""] 16 = 24 /\
  12 <= Fonts.typeAll ["4"; "41"; "abc"; "24"; "-12"; ""] 16 <= 40.
Proof.
  split; [reflexivity |].
  apply (font_size_stays_in_range ["4"; "41"; "abc"; "24"; "-12"; ""] 16).
  lia.
Defined.

(** X22. The page always has a wallpaper to show: the one of the selected
    id from its own catalogue, else the first.  Of the wallpapers that the
    settings section offers, the page shows each as it is listed there,
    except [snow], which its catalogue knows as [nature]: for that
    selection it shows the default wallpaper. *)
Theorem page_wallpaper_of_settings_choice :
  (forall selectedWallpaper,
     In (Wallpapers.wallpaper selectedWallpaper) Wallpapers.pageWallpapers /\
     (Wallpapers.id (Wallpapers.wallpaper selectedWallpaper)
      = selectedWallpaper \/
      Wallpapers.wallpaper selectedWallpaper = Wallpapers.first)) /\
  (forall w, In w Wallpapers.settingsWallpapers ->
     Wallpapers.wallpaper (Wallpapers.id w)
     = if String.eqb (Wallpapers.id w) "snow" then Wallpapers.first else w).
Proof.
  split.
  - intros sel. unfold Wallpapers.wallpaper.
    destruct (find _ Wallpapers.pageWallpapers) as [w |] eqn:E.
    + apply find_some in E as [Hin Hid]. apply String.eqb_eq in Hid.
      split; [exact Hin | now left].
    + split; [now left | now right].
  - intros w Hw. simpl in Hw.
    repeat (destruct Hw as [<- | Hw]; [reflexivity |]). contradiction.
Qed.

(** ** Presets with a long break after every session *)

(** X23. Under a current preset whose [longBreakInterval] is 1 (52/17 Rule
    and the two countdown presets among the built-ins) every focus session
    is followed by the long break: no run without [switchMode] that starts
    outside [short-break] ever reaches it. *)
Theorem interval_one_never_gives_short_break :
  forall raw p tr s,
    getCurrentPreset raw = Some p ->
    longBreakInterval p = 1 ->
    manualSwitchFree tr = true ->
    timerMode s <> short_break ->
    timerMode (run raw tr s) <> short_break.
Proof.
  intros raw p tr s Hp Hk Hfree Hm. unfold run.
  apply (runPage_mode_invariant raw (fun m => m <> short_break) tr (mounted s));
    [| exact Hfree | exact Hm].
  intros render x _. unfold handleTimerCompleteOf. rewrite Hp, Hk.
  unfold Js.remIsZero. rewrite Z.rem_1_r.
  destruct (timerMode render); simpl; discriminate.
Qed.

(** The 52/17 Rule: after the first focus period the timer is in the long
    break of 17 minutes. *)
Lemma interval_one_never_gives_short_break_example :
  let raw := builtin "52-17-rule" in
  let tr := Start :: repeat Tick 3120 in
  timerMode (run raw tr (initialState raw)) = long_break /\
  timerMode (run raw tr (initialState raw)) <> short_break.
Proof.
  intros raw tr.
  assert (Hp : getCurrentPreset raw
               = Some (nth 2 getDefaultPresets classicPreset))
    by reflexivity.
  assert (Hfree : manualSwitchFree tr = true) by (vm_compute; reflexivity).
  split; [vm_compute; reflexivity |].
  apply (interval_one_never_gives_short_break raw _ tr (initialState raw)
           Hp eq_refl Hfree).
  discriminate.
Defined.
